(** * PythonServer: the step-tracing calculator server, its client and its caching proxy

    A shallow embedding of [server.py], [proxy.py] and [client.py].
    Python lists that are mutated in place live in an explicit store,
    exceptions are a result type, and socket traffic is a list of events
    produced from an environment that says what each blocking call
    returns. *)

From Stdlib Require Import ZArith Lia Ascii String.
From stdpp Require Import base option list strings pretty gmap.

Set Warnings "-register-all".

(** ** Python exceptions *)

Inductive exn : Type :=
| TypeError (msg : string)
| RuleError (msg : string)
| UnpackError (msg : string)
| SocketError (msg : string)
| ConnectionRefusedError
| CalculatorClientError (msg : string)
| CalculatorClientErrorFrom (msg : string) (cause : exn)
| CalculatorServerError (msg : string)
| CalculatorServerErrorFrom (msg : string) (cause : exn).

Inductive res (A : Type) : Type :=
| Ok (a : A)
| Raise (e : exn).
Arguments Ok {A} a.
Arguments Raise {A} e.

(** ** Stateful code that may raise

    A computation reads and changes a state and returns or raises; what
    it has changed before raising stays changed. *)

Definition M (S B : Type) : Type := S -> res B * S.

Definition ret {S B} (b : B) : M S B := fun s => (Ok b, s).

Definition bind {S B C} (m : M S B) (k : B -> M S C) : M S C :=
  fun s => match m s with
           | (Ok b, s') => k b s'
           | (Raise e, s') => (Raise e, s')
           end.

(** a pure call that returns or raises *)
Definition lift {S B} (r : res B) : M S B := fun s => (r, s).

(** [try: m  except Exception as e: ...], giving the handler's input *)
Definition attempt {S B} (m : M S B) : M S (res B) :=
  fun s => match m s with (r, s') => (Ok r, s') end.

Notation "'let!' x ':=' c1 'in' c2" := (bind c1 (fun x => c2))
  (at level 10, x pattern, c1 at level 100, c2 at level 200, only parsing).

(** ** The store of step lists

    [calculate] appends to the list object it is given and returns that
    same object, so lists are references into a store.  A reference is
    the position of the list in the store; [[]] in the source allocates
    a new one at the end. *)

Module Store.
Abbreviation ref := nat.
Abbreviation store A := (list (list A)).

(** [x = []] *)
Definition new_list {A} : M (store A) ref := fun h => (Ok (length h), h ++ [[]]).

(** [x.append(a)]; a reference always denotes an allocated list in the
    source, and outside the store this does nothing. *)
Definition append {A} (r : ref) (a : A) : M (store A) unit :=
  fun h => (Ok tt, alter (fun l => l ++ [a]) r h).

(** the current contents of the list object *)
Definition read {A} (r : ref) : M (store A) (list A) :=
  fun h => (Ok (default [] (h !! r)), h).

(** [for x in xs: body(x)] over a list value that the body does not
    mutate (the source iterates over a slice, which is a copy) *)
Fixpoint for_each {A B} (xs : list B) (body : B -> M (store A) unit) : M (store A) unit :=
  match xs with
  | [] => ret tt
  | x :: xs' => bind (body x) (fun _ => for_each xs' body)
  end.

(** a list object grown by [tr] *)
Definition extend {A} (r : ref) (tr : list A) (h : store A) : store A :=
  alter (fun l => l ++ tr) r h.

(** [h'] is [h] with [tr] appended to the list [steps]; every other
    list that [h] has is as it was, and [h'] may have more lists. *)
Definition post {A} (h h' : store A) (steps : ref) (tr : list A) : Prop :=
  (length h <= length h')%nat /\
  forall r, (r < length h)%nat ->
    h' !! r = if decide (r = steps) then (fun l => l ++ tr) <$> h !! r else h !! r.
End Store.

(** ** The expression model and the evaluator of [server.py] *)

Section Evaluator.
(** Python's [numbers.Real] *)
Variable num : Type.

(** Modelled from the spec: the registry entries of [api.py], which is
    not among the sources.  An entry has a display token and an
    evaluation rule; the rule may raise (division by zero, a wrong
    number of arguments). *)
Record BinaryOp := { bin_symbol : string; bin_function : num -> num -> res num }.
Record UnaryOp := { un_symbol : string; un_function : num -> res num }.
Record Function := { fn_name : string; fn_function : list num -> res num }.

(** The expression classes that [calculate] distinguishes.  A bare
    number may stand where an expression is expected: [calculate]
    itself builds [api.BinaryExpr(left, op, step)] with [left] a
    number. *)
Inductive Expr : Type :=
| Number (v : num)
| Constant (value : num)
| NamedConstant (name : string) (value : num)
| BinaryExpr (left_operand : Expr) (operator : BinaryOp) (right_operand : Expr)
| UnaryExpr (operator : UnaryOp) (operand : Expr)
| FunctionCallExpr (function : Function) (args : list Expr).

(** Modelled from the spec: [api.type_fallback] turns a literal number
    found in place of an expression into a [Constant]. *)
Definition type_fallback (e : Expr) : Expr :=
  match e with
  | Number v => Constant v
  | _ => e
  end.

Import Store.

Abbreviation heap := (store Expr).
Abbreviation ST := (M (store Expr)).

(** The body of [for arg in expr.args] in [calculate], with [calc] the
    recursive call: [rest] is what the loop has still to visit and
    [args] the list of values resolved so far. *)
Fixpoint calculate_args (calc : Expr -> ref -> ST (num * ref))
    (function : Function) (expr_args : list Expr) (steps : ref)
    (rest : list Expr) (args : list num) : ST (list num) :=
  match rest with
  | [] => ret args
  | arg :: rest' =>
      let! arg_steps := new_list in
      let! (arg, arg_steps) := calc arg arg_steps in
      let! got := read arg_steps in
      let! _ := for_each (removelast got) (fun step =>
        append steps (FunctionCallExpr function
          (map Number args ++ [step] ++ drop (length args + 1) expr_args))) in
      calculate_args calc function expr_args steps rest' (args ++ [arg])
  end.

(** [calculate(expression, steps)].  The first three cases are the
    branch for [Constant] and [NamedConstant], which a bare number
    reaches through [type_fallback]; an object of any other class makes
    the source raise [TypeError] and is not an [Expr]. *)
Fixpoint calculate (expression : Expr) (steps : ref) {struct expression}
    : ST (num * ref) :=
  match expression with
  | Number value
  | Constant value
  | NamedConstant _ value => ret (value, steps)
  | BinaryExpr left_operand operator right_operand =>
      let! left_steps := new_list in
      let! right_steps := new_list in
      let! (left_, left_steps) := calculate left_operand left_steps in
      let! got := read left_steps in
      let! _ := for_each (removelast got) (fun step =>
        append steps (BinaryExpr step operator right_operand)) in
      let! (right_, left_steps) := calculate right_operand right_steps in
      let! got := read right_steps in
      let! _ := for_each (removelast got) (fun step =>
        append steps (BinaryExpr (Number left_) operator step)) in
      let! _ := append steps (BinaryExpr (Number left_) operator (Number right_)) in
      let! v := lift (bin_function operator left_ right_) in
      let! _ := append steps (Constant v) in
      ret (v, steps)
  | UnaryExpr operator operand =>
      let! operand_steps := new_list in
      let! (operand, operand_steps) := calculate operand operand_steps in
      let! got := read operand_steps in
      let! _ := for_each (removelast got) (fun step =>
        append steps (UnaryExpr operator step)) in
      let! _ := append steps (UnaryExpr operator (Number operand)) in
      let! v := lift (un_function operator operand) in
      let! _ := append steps (Constant v) in
      ret (v, steps)
  | FunctionCallExpr function expr_args =>
      let! args := calculate_args calculate function expr_args steps expr_args [] in
      let! _ := append steps (FunctionCallExpr function (map Number args)) in
      let! v := lift (fn_function function args) in
      let! _ := append steps (Constant v) in
      ret (v, steps)
  end.

(** The list object that [def calculate(expression, steps=[])] creates
    once, when [server.py] is loaded, and the store at that moment. *)
Definition default_steps : ref := 0%nat.
Definition loaded : heap := [[]].

(** [calculate(expression)], the call that leaves [steps] out *)
Definition calculate_default (expression : Expr) : ST (num * ref) :=
  calculate expression default_steps.

(** *** The trace as the specification words it

    A pure function, with no store: the value and the steps that one
    evaluation emits.  Positions in a call are counted by [i]. *)

Fixpoint evaluate_args (ev : Expr -> res (num * list Expr))
    (function : Function) (original : list Expr) (i : nat)
    (resolved : list num) (rest : list Expr) : res (list num * list Expr) :=
  match rest with
  | [] => Ok (resolved, [])
  | a :: rest' =>
      match ev a with
      | Raise e => Raise e
      | Ok (v, asteps) =>
          match evaluate_args ev function original (S i) (resolved ++ [v]) rest' with
          | Raise e => Raise e
          | Ok (vs, later) =>
              Ok (vs,
                  map (fun step => FunctionCallExpr function
                         (map Number resolved ++ step :: drop (S i) original))
                      (removelast asteps) ++ later)
          end
      end
  end.

Fixpoint evaluate (e : Expr) : res (num * list Expr) :=
  match e with
  | Number v | Constant v | NamedConstant _ v => Ok (v, [])
  | BinaryExpr l op r =>
      match evaluate l with
      | Raise e => Raise e
      | Ok (lv, lsteps) =>
          match evaluate r with
          | Raise e => Raise e
          | Ok (rv, rsteps) =>
              match bin_function op lv rv with
              | Raise e => Raise e
              | Ok v =>
                  Ok (v,
                      map (fun step => BinaryExpr step op r) (removelast lsteps)
                      ++ map (fun step => BinaryExpr (Number lv) op step) (removelast rsteps)
                      ++ [BinaryExpr (Number lv) op (Number rv); Constant v])
              end
          end
      end
  | UnaryExpr op x =>
      match evaluate x with
      | Raise e => Raise e
      | Ok (xv, xsteps) =>
          match un_function op xv with
          | Raise e => Raise e
          | Ok v =>
              Ok (v,
                  map (fun step => UnaryExpr op step) (removelast xsteps)
                  ++ [UnaryExpr op (Number xv); Constant v])
          end
      end
  | FunctionCallExpr f es =>
      match evaluate_args evaluate f es 0 [] es with
      | Raise e => Raise e
      | Ok (vs, asteps) =>
          match fn_function f vs with
          | Raise e => Raise e
          | Ok v =>
              Ok (v, asteps ++ [FunctionCallExpr f (map Number vs); Constant v])
          end
      end
  end.

(** What a run on a store must be for the pure trace [expect]: the same
    result, with the trace appended to the list [steps]; when it raises,
    the same exception, with what was emitted until then. *)
Definition refines {B} (run : res B * heap) (h : heap)
    (steps : ref) (expect : res (B * list Expr)) : Prop :=
  match expect with
  | Ok (b, tr) => exists h', run = (Ok b, h') /\ post h h' steps tr
  | Raise ex => exists h' tr, run = (Raise ex, h') /\ post h h' steps tr
  end.

(** [calculate] returns the list object it was given. *)
Definition with_ref (steps : ref) (r : res (num * list Expr))
    : res ((num * ref) * list Expr) :=
  match r with
  | Ok (v, tr) => Ok ((v, steps), tr)
  | Raise ex => Raise ex
  end.

Definition calculate_ok (e : Expr) : Prop :=
  forall steps h, (steps < length h)%nat ->
    refines (calculate e steps h) h steps (with_ref steps (evaluate e)).

(** Induction over expressions that reaches the arguments of a call. *)
Section ExprInd.
Variable P : Expr -> Prop.
Hypothesis HNumber : forall v, P (Number v).
Hypothesis HConstant : forall v, P (Constant v).
Hypothesis HNamed : forall n v, P (NamedConstant n v).
Hypothesis HBinary : forall l op r, P l -> P r -> P (BinaryExpr l op r).
Hypothesis HUnary : forall op x, P x -> P (UnaryExpr op x).
Hypothesis HCall : forall f es, Forall P es -> P (FunctionCallExpr f es).

Fixpoint Expr_nested_ind (e : Expr) : P e :=
  match e with
  | Number v => HNumber v
  | Constant v => HConstant v
  | NamedConstant n v => HNamed n v
  | BinaryExpr l op r => HBinary l op r (Expr_nested_ind l) (Expr_nested_ind r)
  | UnaryExpr op x => HUnary op x (Expr_nested_ind x)
  | FunctionCallExpr f es =>
      HCall f es
        ((fix all (l : list Expr) : Forall P l :=
            match l with
            | [] => List.Forall_nil P
            | a :: l' => List.Forall_cons P a l' (Expr_nested_ind a) (all l')
            end) es)
  end.
End ExprInd.

(** Modelled from the spec: [api.stringify], which is not among the
    sources.  Each class is rendered with its display token, operands in
    their order, and with [add_brackets] an operand that is itself an
    operator expression is put in parentheses. *)
Variable show_num : num -> string.

Definition is_operation (e : Expr) : bool :=
  match e with
  | BinaryExpr _ _ _ | UnaryExpr _ _ => true
  | _ => false
  end.

Definition bracket (add_brackets : bool) (e : Expr) (s : string) : string :=
  if add_brackets && is_operation e then "(" +:+ s +:+ ")" else s.

Fixpoint stringify (add_brackets : bool) (e : Expr) : string :=
  match e with
  | Number v | Constant v => show_num v
  | NamedConstant n _ => n
  | BinaryExpr l op r =>
      bracket add_brackets l (stringify add_brackets l)
      +:+ " " +:+ bin_symbol op +:+ " "
      +:+ bracket add_brackets r (stringify add_brackets r)
  | UnaryExpr op x =>
      un_symbol op +:+ bracket add_brackets x (stringify add_brackets x)
  | FunctionCallExpr f es =>
      fn_name f +:+ "(" +:+ String.concat ", " (map (stringify add_brackets) es) +:+ ")"
  end.
End Evaluator.

Arguments bin_symbol {num} _.
Arguments bin_function {num} _ _ _.
Arguments un_symbol {num} _.
Arguments un_function {num} _ _.
Arguments fn_name {num} _.
Arguments fn_function {num} _ _.
Arguments Number {num} v.
Arguments Constant {num} value.
Arguments NamedConstant {num} name value.
Arguments BinaryExpr {num} left_operand operator right_operand.
Arguments UnaryExpr {num} operator operand.
Arguments FunctionCallExpr {num} function args.
Arguments type_fallback {num} e.
Arguments calculate_args {num} calc function expr_args steps rest args _.
Arguments calculate {num} expression steps _.
Arguments calculate_default {num} expression _.
Arguments loaded {num}.
Arguments evaluate_args {num} ev function original i resolved rest.
Arguments evaluate {num} e.
Arguments refines {num B} run h steps expect.
Arguments with_ref {num} steps r.
Arguments calculate_ok {num} e.
Arguments stringify {num} show_num add_brackets e.

(** Modelled from the spec: the entries [ADD] and [MUL] of the registry
    of [api.py], which is not among the sources, on Python integers. *)
Definition ADD : BinaryOp Z :=
  {| bin_symbol := "+"; bin_function := fun a b => Ok (a + b)%Z |}.
Definition MUL : BinaryOp Z :=
  {| bin_symbol := "*"; bin_function := fun a b => Ok (a * b)%Z |}.

(** [str] of a Python integer *)
Definition str_int (z : Z) : string := pretty z.

(** ** Messages

    [api.py], which defines the messages, is not among the sources; the
    three programs use it through the names below. *)

Open Scope Z_scope.

(** Python's [bytes]: a sequence of 8-bit characters *)
Abbreviation bytes := string.

(** Modelled from the spec: the status codes [STATUS_OK],
    [STATUS_CLIENT_ERROR] and [STATUS_SERVER_ERROR] of
    [api.CalculatorHeader]. *)
Inductive status : Type := STATUS_OK | STATUS_CLIENT_ERROR | STATUS_SERVER_ERROR.

(** Modelled from the spec: [api.CalculatorHeader], the header fields
    of the specification's data model and the payload. *)
Record CalculatorHeader : Type := {
  unix_time_stamp : Z;
  is_request : bool;
  show_steps : bool;
  cache_result : bool;
  status_code : status;
  cache_control : Z;
  data : bytes
}.

(** Modelled from the spec: [api.CalculatorHeader.MAX_CACHE_CONTROL],
    the reserved largest cache control, which stands for an unlimited
    window; [server.py] and [client.py] write it [2 ** 16 - 1]. *)
Definition MAX_CACHE_CONTROL : Z := 2 ^ 16 - 1.

(** Modelled from the spec: the part of [api.py] that turns messages
    into bytes and back ([pack], [unpack], which raises on bytes that
    are not a message) and renders an exception as a payload.  The
    statements below hold for every such codec. *)
Class Wire : Type := {
  pack : CalculatorHeader -> bytes;
  unpack : bytes -> res CalculatorHeader;
  error_to_data : exn -> bytes
}.

(** Modelled from the spec: the part of [api.py] that knows the
    numbers: the text of a number, the expression in the payload of a
    request ([data_to_expression], which raises on a payload that is not
    one), and the payload of a result. *)
Class Payload (num : Type) : Type := {
  show_num : num -> string;
  data_to_expression : CalculatorHeader -> res (Expr num);
  result_to_data : num -> list string -> bytes
}.

(** Modelled from the spec: [api.CalculatorHeader.from_error], a
    response with the given status and cache fields whose payload is
    the text of the exception; a response carries the time at which it
    is produced. *)
Definition from_error `{Wire} (now : Z) (e : exn) (code : status)
    (cache_result_ : bool) (cache_control_ : Z) : CalculatorHeader :=
  {| unix_time_stamp := now; is_request := false; show_steps := false;
     cache_result := cache_result_; status_code := code;
     cache_control := cache_control_; data := error_to_data e |}.

(** Modelled from the spec: [api.CalculatorHeader.from_result], a
    response of status [OK] whose payload is the result and the
    rendered steps. *)
Definition from_result {num} `{Payload num} (now : Z) (result : num) (steps : list string)
    (cache_result_ : bool) (cache_control_ : Z) : CalculatorHeader :=
  {| unix_time_stamp := now; is_request := false; show_steps := false;
     cache_result := cache_result_; status_code := STATUS_OK;
     cache_control := cache_control_; data := result_to_data result steps |}.

(** Modelled from the spec: [api.CalculatorHeader.from_response], a
    response with the given payload and fields. *)
Definition from_response (now : Z) (data_ : bytes) (code : status) (show_steps_ : bool)
    (cache_result_ : bool) (cache_control_ : Z) : CalculatorHeader :=
  {| unix_time_stamp := now; is_request := false; show_steps := show_steps_;
     cache_result := cache_result_; status_code := code;
     cache_control := cache_control_; data := data_ |}.

(** ** Sockets

    What a handler sends, in order, and how an iteration of its loop
    ends.  An exception that no [except] clause catches is the [Raise]
    of the iteration and ends the handler. *)

Inductive event : Type :=
| ToClient (b : bytes)
| ToOrigin (b : bytes).

Inductive control : Type :=
| Continue
| Break.

(** How a connection handler is left. *)
Inductive ending : Type :=
| Closed          (* the loop was left and the connection released *)
| Waiting         (* the loop is blocked in [recv] *)
| Died (e : exn). (* an exception left the handler; the sockets are released *)

(** ** [client.py]: what the client sends when the user types [exit] *)

Module Client.
Definition termination_request (now : Z) : CalculatorHeader :=
  from_response now "EXIT" STATUS_OK false false 0.

(** Modelled from the spec: the part of [api.py] that reads the payload
    of a response: the result with the rendered steps
    ([data_to_result]) and the text of an error ([data_to_error]); both
    raise on a payload that is not one. *)
Class Reader (num : Type) : Type := {
  data_to_result : CalculatorHeader -> res (num * list string);
  data_to_error : CalculatorHeader -> res string
}.

(** What [process_response] can raise: an exception of the three
    programs, or the [ValueError] of a Python unpacking that finds too
    few values. *)
Inductive raised : Type :=
| Calculator (e : exn)
| ValueError (msg : string).

(** the end of a printed line *)
Definition nl : string := String "010"%char EmptyString.

(** [' ' * n] *)
Fixpoint spaces (n : nat) : string :=
  match n with
  | O => EmptyString
  | S n' => String " "%char (spaces n')
  end.

Section Client.
Context {num : Type} `{Payload num} `{Reader num}.

(** [process_response(response)]: what it prints, and what it raises if
    it raises.  [expr, first, *rest = steps] needs two steps.  A status
    code is one of the three, so the last branch of the source, for an
    unknown one, is not reached. *)
Definition process_response (response : CalculatorHeader) : string * option raised :=
  if is_request response then
    (EmptyString, Some (Calculator (CalculatorClientError "Got a request instead of a response")))
  else
    match status_code response with
    | STATUS_OK =>
        match data_to_result response with
        | Raise e => (EmptyString, Some (Calculator e))
        | Ok (result, steps) =>
            let printed := "Result: " +:+ show_num result +:+ nl in
            match steps with
            | [] => (printed, None)
            | [_] =>
                (printed +:+ "Steps:" +:+ nl,
                 Some (ValueError "not enough values to unpack (expected at least 2, got 1)"))
            | expr :: first :: rest =>
                let printed := printed +:+ "Steps:" +:+ nl in
                let printed :=
                  printed +:+ expr +:+ " = " +:+ first
                  +:+ (match rest with [] => nl | _ => EmptyString end) in
                match rest with
                | [] => (printed, None)
                | _ =>
                    (printed
                     +:+ String.concat ""
                           (map (fun v => nl +:+ spaces (String.length expr) +:+ " = " +:+ v)
                                rest)
                     +:+ nl,
                     None)
                end
            end
        end
    | STATUS_CLIENT_ERROR =>
        match data_to_error response with
        | Raise e => (EmptyString, Some (Calculator e))
        | Ok err => (EmptyString, Some (Calculator (CalculatorClientError err)))
        end
    | STATUS_SERVER_ERROR =>
        match data_to_error response with
        | Raise e => (EmptyString, Some (Calculator e))
        | Ok err => (EmptyString, Some (Calculator (CalculatorServerError err)))
        end
    end.
End Client.
End Client.

(** ** [server.py] *)

Module Server.
Import Store.

Definition CACHE_POLICY : bool := true.
Definition CACHE_CONTROL : Z := 2 ^ 16 - 1.

(** What the blocking calls of one iteration of the loop return:
    [recv], the clock, the [sendall] of the [try] body, and the
    [sendall] of the [except] clause. *)
Record env : Type := {
  recv : res bytes;
  now : Z;
  sendall : res unit;
  sendall_error : res unit
}.

Section Server.
Context {num : Type} `{Wire} `{Payload num}.

(** [process_request(request)] *)
Definition process_request (now : Z) (request : CalculatorHeader)
    : M (store (Expr num)) CalculatorHeader :=
  let! steps := new_list in
  let! outcome := attempt (
    if is_request request then
      let! expr := lift (data_to_expression request) in
      calculate expr steps
    else
      lift (Raise (TypeError "Received a response instead of a request"))) in
  match outcome with
  | Raise e => ret (from_error now e STATUS_CLIENT_ERROR CACHE_POLICY CACHE_CONTROL)
  | Ok (result, steps) =>
      let! got := read steps in
      let steps :=
        if show_steps request then map (stringify show_num true) got else [] in
      ret (from_result now result steps CACHE_POLICY CACHE_CONTROL)
  end.

(** the [except Exception as e] clause at the end of the loop body *)
Definition unexpected (v : env) (e : exn) : list event * control :=
  let error_response :=
    pack (from_error (now v) e STATUS_SERVER_ERROR CACHE_POLICY CACHE_CONTROL) in
  match sendall_error v with
  | Ok _ => ([ToClient error_response], Continue)
  | Raise send_error => ([], Break)
  end.

(** [client_socket.sendall(b)] inside the [try] *)
Definition reply (v : env) (b : bytes) : list event * control :=
  match sendall v with
  | Ok _ => ([ToClient b], Continue)
  | Raise e => unexpected v e
  end.

(** one iteration of [while True] in [client_handler] *)
Definition iteration (v : env) : M (store (Expr num)) (list event * control) :=
  match recv v with
  | Raise e => ret (unexpected v e)
  | Ok data_ =>
      if String.eqb data_ "" then ret ([], Break)
      else
        match unpack data_ with
        | Raise e =>
            let error_response :=
              pack (from_error (now v) e STATUS_CLIENT_ERROR CACHE_POLICY CACHE_CONTROL) in
            ret (reply v error_response)
        | Ok request =>
            if negb (is_request request) && String.eqb (data request) "terminate"
            then ret ([], Break)
            else
              let! response := process_request (now v) request in
              let response := pack response in
              ret (reply v response)
        end
  end.

(** [client_handler], run on what its blocking calls return *)
Fixpoint client_handler (vs : list env) : M (store (Expr num)) (list event * ending) :=
  match vs with
  | [] => ret ([], Waiting)
  | v :: vs' =>
      let! (out, c) := iteration v in
      match c with
      | Continue =>
          let! (out', e) := client_handler vs' in
          ret (out ++ out', e)
      | Break => ret (out, Closed)
      end
  end.

(** a response to the client, built cacheable and with the largest
    cache control *)
Definition built (ev : event) : Prop :=
  exists m, ev = ToClient (pack m)
    /\ is_request m = false
    /\ cache_result m = true
    /\ cache_control m = 2 ^ 16 - 1.
End Server.
End Server.

(** ** [proxy.py] *)

Module Proxy.

Definition INDEFINITE : Z := MAX_CACHE_CONTROL.

(** an integer number of seconds, or [math.inf] *)
Inductive remaining : Type :=
| Finite (z : Z)
| Infinite.

(** [cc if cc != INDEFINITE else math.inf] *)
Definition or_inf (cc : Z) : remaining :=
  if cc =? INDEFINITE then Infinite else Finite cc.

(** [r - age] *)
Definition minus (r : remaining) (age : Z) : remaining :=
  match r with
  | Finite z => Finite (z - age)
  | Infinite => Infinite
  end.

(** [r > 0] *)
Definition positive (r : remaining) : bool :=
  match r with
  | Finite z => 0 <? z
  | Infinite => true
  end.

(** [server_time_remaining] and [client_time_remaining] of a response
    for a request at time [current_time] *)
Definition server_time_remaining (response : CalculatorHeader) (current_time : Z) : remaining :=
  minus (or_inf (cache_control response)) (current_time - unix_time_stamp response).
Definition client_time_remaining (request response : CalculatorHeader) (current_time : Z)
    : remaining :=
  minus (or_inf (cache_control request)) (current_time - unix_time_stamp response).

(** [server_time_remaining > 0 and client_time_remaining > 0] *)
Definition fresh (request response : CalculatorHeader) (current_time : Z) : bool :=
  positive (server_time_remaining response current_time)
  && positive (client_time_remaining request response current_time).

(** The module-level dictionary [cache] and what has been sent. *)
Record state : Type := {
  cache : gmap (string * bool) CalculatorHeader;
  sent : list event
}.

Definition get_cache : M state (gmap (string * bool) CalculatorHeader) :=
  fun s => (Ok (cache s), s).

(** [cache[key] = response] *)
Definition store_response (key : string * bool) (response : CalculatorHeader) : M state unit :=
  fun s => (Ok tt, {| cache := <[key := response]> (cache s); sent := sent s |}).

(** a [sendall] that returns or raises as [outcome] says *)
Definition send (outcome : res unit) (ev : event) : M state unit :=
  fun s => match outcome with
           | Ok _ => (Ok tt, {| cache := cache s; sent := sent s ++ [ev] |})
           | Raise e => (Raise e, s)
           end.

(** What the blocking calls of one [process_request] return. *)
Record fetch_env : Type := {
  time_lookup : Z;
  connect : res unit;
  fetch_sendall : res unit;
  fetch_recv : res bytes;
  time_store : Z
}.

(** What the blocking calls of one iteration of [client_handler]
    return: the client's bytes, the clock, the [sendall] and [recv] on
    the origin socket, the [sendall] to the client in the [try] body and
    the one in the [except] clause. *)
Record env : Type := {
  recv_client : res bytes;
  now : Z;
  sendall_origin : res unit;
  recv_origin : res bytes;
  sendall_client : res unit;
  sendall_error : res unit
}.

Section Proxy.
Context `{Wire}.

(** [process_request(request, server_address)], which no other function
    of [proxy.py] calls.  It returns the response, the two remaining
    times, and whether the response came from the cache, was stale, and
    was stored. *)
Definition process_request (v : fetch_env) (request : CalculatorHeader)
    : M state (CalculatorHeader * remaining * remaining * bool * bool * bool) :=
  if negb (is_request request) then
    lift (Raise (TypeError "Received a response instead of a request"))
  else
    let data_ := data request in
    let! c := get_cache in
    let found :=
      match c !! (data_, show_steps request) with
      | Some response =>
          if negb (cache_control request =? 0) then Some response else None
      | None => None
      end in
    let hit :=
      match found with
      | Some response =>
          if fresh request response (time_lookup v) then Some response else None
      | None => None
      end in
    match hit with
    | Some response =>
        ret (response,
             server_time_remaining response (time_lookup v),
             client_time_remaining request response (time_lookup v),
             true, false, false)
    | None =>
        let was_stale := bool_decide (is_Some found) in
        let! _ := lift (match connect v with
                        | Raise ConnectionRefusedError =>
                            Raise (CalculatorServerError
                              "Connection refused by server and the request was not in the cache/it was stale")
                        | r => r
                        end) in
        let! _ := send (fetch_sendall v) (ToOrigin (pack request)) in
        let! response := lift (fetch_recv v) in
        let! response := lift (match unpack response with
                               | Raise e =>
                                   Raise (CalculatorClientErrorFrom
                                            "Error while unpacking request" e)
                               | r => r
                               end) in
        if is_request response then
          lift (Raise (TypeError "Received a request instead of a response"))
        else
          let current_time := time_store v in
          let server_time_remaining_ := server_time_remaining response current_time in
          let client_time_remaining_ := client_time_remaining request response current_time in
          if cache_result request && cache_result response
             && (positive server_time_remaining_ && positive client_time_remaining_)
          then
            let! _ := store_response (data_, show_steps request) response in
            ret (response, server_time_remaining_, client_time_remaining_, false, was_stale, true)
          else
            ret (response, server_time_remaining_, client_time_remaining_, false, was_stale, false)
    end.

(** the [try] body of one iteration of [client_handler], for the bytes
    [data_] that the client sent *)
Definition handle (v : env) (data_ : bytes) : M state control :=
  let! request := lift (unpack data_) in
  if String.eqb (data request) "EXIT" then
    let! _ := send (sendall_origin v) (ToOrigin data_) in
    let! response_data := lift (recv_origin v) in
    let! _ := send (sendall_client v) (ToClient response_data) in
    ret Break
  else
    let cache_key := (data request, show_steps request) in
    let! c := get_cache in
    let hit :=
      match c !! cache_key with
      | Some response => if fresh request response (now v) then Some response else None
      | None => None
      end in
    match hit with
    | Some response =>
        let! _ := send (sendall_client v) (ToClient (pack response)) in
        ret Continue
    | None =>
        let! _ := send (sendall_origin v) (ToOrigin data_) in
        let! response_data := lift (recv_origin v) in
        let! response := lift (unpack response_data) in
        let! _ := (if cache_result request && cache_result response
                   then store_response cache_key response
                   else ret tt) in
        let! _ := send (sendall_client v) (ToClient response_data) in
        ret Continue
    end.

(** the response of the [except Exception as e] clause *)
Definition proxy_error (v : env) (e : exn) : CalculatorHeader :=
  from_error (now v) (CalculatorServerErrorFrom "Internal proxy error" e)
    STATUS_SERVER_ERROR false 0.

(** one iteration of [while True] in [client_handler]; an exception of
    [recv] or of the [sendall] in the [except] clause is not caught *)
Definition iteration (v : env) : M state control :=
  let! data_ := lift (recv_client v) in
  if String.eqb data_ "" then ret Break
  else
    let! outcome := attempt (handle v data_) in
    match outcome with
    | Ok c => ret c
    | Raise e =>
        let! _ := send (sendall_error v) (ToClient (pack (proxy_error v e))) in
        ret Continue
    end.

(** the loop of [client_handler] *)
Fixpoint loop (vs : list env) (s : state) : ending * state :=
  match vs with
  | [] => (Waiting, s)
  | v :: vs' =>
      match iteration v s with
      | (Ok Continue, s') => loop vs' s'
      | (Ok Break, s') => (Closed, s')
      | (Raise e, s') => (Died e, s')
      end
  end.

(** [client_handler]: the origin is connected to when the client
    connects, before anything is read *)
Definition client_handler (connected : res unit) (vs : list env) (s : state)
    : ending * state :=
  match connected with
  | Raise ConnectionRefusedError => (Closed, s)
  | Raise e => (Died e, s)
  | Ok _ => loop vs s
  end.
End Proxy.
End Proxy.

(** ** A concrete wire format

    The statements about the handlers hold for every codec.  To run
    them, here is one, in a layout of its own: a byte of flags, a byte
    of status, two bytes of cache control, four bytes of time stamp,
    then the payload.  A request payload is an expression in prefix
    form over one-digit constants, [+] and [*]. *)

Module Demo.
Definition byte (z : Z) : ascii := ascii_of_N (Z.to_N (z mod 256)).
Definition value (a : ascii) : Z := Z.of_N (N_of_ascii a).

Definition flags (m : CalculatorHeader) : Z :=
  (if is_request m then 1 else 0) + (if show_steps m then 2 else 0)
  + (if cache_result m then 4 else 0).

Definition status_byte (c : status) : Z :=
  match c with
  | STATUS_OK => 0
  | STATUS_CLIENT_ERROR => 1
  | STATUS_SERVER_ERROR => 2
  end.

Definition byte_status (z : Z) : option status :=
  if z =? 0 then Some STATUS_OK
  else if z =? 1 then Some STATUS_CLIENT_ERROR
  else if z =? 2 then Some STATUS_SERVER_ERROR
  else None.

(** Modelled from the spec: an encoder and a decoder that are inverse
    to each other on messages whose fields are in range, the decoder
    raising on truncated bytes and on an unknown status. *)
Definition demo_pack (m : CalculatorHeader) : bytes :=
  String (byte (flags m))
  (String (byte (status_byte (status_code m)))
  (String (byte (cache_control m / 2 ^ 8))
  (String (byte (cache_control m))
  (String (byte (unix_time_stamp m / 2 ^ 24))
  (String (byte (unix_time_stamp m / 2 ^ 16))
  (String (byte (unix_time_stamp m / 2 ^ 8))
  (String (byte (unix_time_stamp m)) (data m)))))))).

Definition demo_unpack (b : bytes) : res CalculatorHeader :=
  match b with
  | String f (String c (String c1 (String c0
      (String t3 (String t2 (String t1 (String t0 payload))))))) =>
      if value f <? 8 then
        match byte_status (value c) with
        | Some code =>
            Ok {| unix_time_stamp :=
                    value t3 * 2 ^ 24 + value t2 * 2 ^ 16 + value t1 * 2 ^ 8 + value t0;
                  is_request := Z.testbit (value f) 0;
                  show_steps := Z.testbit (value f) 1;
                  cache_result := Z.testbit (value f) 2;
                  status_code := code;
                  cache_control := value c1 * 2 ^ 8 + value c0;
                  data := payload |}
        | None => Raise (UnpackError "unknown status")
        end
      else Raise (UnpackError "reserved flag set")
  | _ => Raise (UnpackError "truncated header")
  end.

(** [str(e)] *)
Fixpoint message (e : exn) : string :=
  match e with
  | TypeError msg | RuleError msg | UnpackError msg | SocketError msg
  | CalculatorClientError msg | CalculatorServerError msg => msg
  | ConnectionRefusedError => "Connection refused"
  | CalculatorClientErrorFrom msg cause
  | CalculatorServerErrorFrom msg cause => msg +:+ ": " +:+ message cause
  end.

#[export] Instance wire : Wire :=
  {| pack := demo_pack; unpack := demo_unpack; error_to_data := message |}.

(** prefix form: [c7] is a constant, [+ee] a sum, [*ee] a product *)
Fixpoint parse (fuel : nat) (s : string) : option (Expr Z * string) :=
  match fuel with
  | O => None
  | S fuel' =>
      match s with
      | String "c" (String d rest) =>
          if (48 <=? value d) && (value d <=? 57)
          then Some (Constant (value d - 48), rest) else None
      | String "+" rest =>
          match parse fuel' rest with
          | Some (l, rest') =>
              match parse fuel' rest' with
              | Some (r, rest'') => Some (BinaryExpr l ADD r, rest'')
              | None => None
              end
          | None => None
          end
      | String "*" rest =>
          match parse fuel' rest with
          | Some (l, rest') =>
              match parse fuel' rest' with
              | Some (r, rest'') => Some (BinaryExpr l MUL r, rest'')
              | None => None
              end
          | None => None
          end
      | _ => None
      end
  end.

Definition demo_data_to_expression (m : CalculatorHeader) : res (Expr Z) :=
  match parse (String.length (data m)) (data m) with
  | Some (e, EmptyString) => Ok e
  | _ => Raise (UnpackError "not an expression")
  end.

#[export] Instance payload : Payload Z :=
  {| show_num := str_int;
     data_to_expression := demo_data_to_expression;
     result_to_data := fun v steps => String.concat "=" (str_int v :: steps) |}.

(** a request for [2 + 3] with its steps, cacheable without limit *)
Definition request_2_plus_3 : CalculatorHeader :=
  {| unix_time_stamp := 0; is_request := true; show_steps := true;
     cache_result := true; status_code := STATUS_OK;
     cache_control := MAX_CACHE_CONTROL; data := "+c2c3" |}.

(** the same request as a reload: no cached answer is acceptable *)
Definition reload_request : CalculatorHeader :=
  {| unix_time_stamp := 0; is_request := true; show_steps := true;
     cache_result := true; status_code := STATUS_OK;
     cache_control := 0; data := "+c2c3" |}.

(** what the server answers to it at time [t], and the same answer
    with another cache policy [cr] and cache control [cc] *)
Definition answer (t : Z) (cr : bool) (cc : Z) : CalculatorHeader :=
  @from_result Z payload t 5 ["2 + 3"; "5"]%string cr cc.

(** an iteration of the server's loop that reads [b] at time [t] *)
Definition reads (b : bytes) (t : Z) : Server.env :=
  {| Server.recv := Ok b; Server.now := t;
     Server.sendall := Ok tt; Server.sendall_error := Ok tt |}.

(** an iteration of the proxy's loop at time [t]: the client sends
    [request], the origin would answer [b], every [sendall] succeeds *)
Definition exchange (request : CalculatorHeader) (b : bytes) (t : Z) : Proxy.env :=
  {| Proxy.recv_client := Ok (demo_pack request); Proxy.now := t;
     Proxy.sendall_origin := Ok tt; Proxy.recv_origin := Ok b;
     Proxy.sendall_client := Ok tt; Proxy.sendall_error := Ok tt |}.

(** the same for [process_request] *)
Definition fetch (b : bytes) (t : Z) : Proxy.fetch_env :=
  {| Proxy.time_lookup := t; Proxy.connect := Ok tt; Proxy.fetch_sendall := Ok tt;
     Proxy.fetch_recv := Ok b; Proxy.time_store := t |}.

(** a proxy that has sent nothing, with an empty cache and with one
    entry *)
Definition empty : Proxy.state := {| Proxy.cache := ∅; Proxy.sent := [] |}.
Definition holding (request entry : CalculatorHeader) : Proxy.state :=
  {| Proxy.cache := {[ (data request, show_steps request) := entry ]}; Proxy.sent := [] |}.
End Demo.

(** ** Measures used in the statements about the evaluator *)

(** the operator and call nodes of an expression *)
Fixpoint operations {num} (e : Expr num) : nat :=
  match e with
  | Number _ | Constant _ | NamedConstant _ _ => 0
  | BinaryExpr l _ r => S (operations l + operations r)
  | UnaryExpr _ x => S (operations x)
  | FunctionCallExpr _ es => S (list_sum (map operations es))
  end.

(** an expression that [calculate] answers without a step *)
Definition is_constant {num} (e : Expr num) : bool :=
  match e with
  | Number _ | Constant _ | NamedConstant _ _ => true
  | _ => false
  end.

(** the number of steps of an expression: none for a constant, one more
    than its operations otherwise *)
Definition trace_length {num} (e : Expr num) : nat :=
  if is_constant e then 0%nat else S (operations e).

(** the pure evaluation of [e] gives [v] *)
Definition yields {num} (e : Expr num) (v : num) : Prop :=
  exists tr, evaluate e = Ok (v, tr).

(** Modelled from the spec: the entry [MOD] of the registry of [api.py],
    which is not among the sources, on Python integers: [a % b], which
    raises when [b] is 0. *)
Definition MOD : BinaryOp Z :=
  {| bin_symbol := "%";
     bin_function := fun a b =>
       if (b =? 0)%Z then Raise (RuleError "integer modulo by zero") else Ok (a mod b)%Z |}.

(** The payload syntax of [Demo] with a remainder at the top: [%ee]. *)
Module DemoMod.
Definition data_to_expression_mod (m : CalculatorHeader) : res (Expr Z) :=
  match data m with
  | String "%" rest =>
      match Demo.parse (String.length rest) rest with
      | Some (l, rest') =>
          match Demo.parse (String.length rest') rest' with
          | Some (r, EmptyString) => Ok (BinaryExpr l MOD r)
          | _ => Raise (UnpackError "not an expression")
          end
      | None => Raise (UnpackError "not an expression")
      end
  | _ => Demo.demo_data_to_expression m
  end.

Definition payload : Payload Z :=
  {| show_num := str_int;
     data_to_expression := data_to_expression_mod;
     result_to_data := fun v steps => String.concat "=" (str_int v :: steps) |}.

(** a request for [1 % 0], and a request whose payload is no expression *)
Definition request_1_mod_0 : CalculatorHeader :=
  {| unix_time_stamp := 0; is_request := true; show_steps := true;
     cache_result := true; status_code := STATUS_OK;
     cache_control := MAX_CACHE_CONTROL; data := "%c1c0" |}.
Definition request_garbled : CalculatorHeader :=
  {| unix_time_stamp := 0; is_request := true; show_steps := true;
     cache_result := true; status_code := STATUS_OK;
     cache_control := MAX_CACHE_CONTROL; data := "2+3" |}.
End DemoMod.

(** the message that the server takes for the end of the connection *)
Definition terminate_message (t : Z) : CalculatorHeader :=
  from_response t "terminate" STATUS_OK false false 0.

(** A reader for the payloads that [Demo] writes: the result and the
    steps are separated by [=], and an error payload is its text. *)
Module DemoReader.
(** the pieces of [s] between the [=] signs, [acc] being the piece read
    so far, in reverse *)
Fixpoint split (s : string) (acc : string) : list string :=
  match s with
  | EmptyString => [String.rev acc]
  | String c rest =>
      if Ascii.eqb c "="%char then String.rev acc :: split rest EmptyString
      else split rest (String c acc)
  end.

(** the number that the decimal digits [s] write after [acc] *)
Fixpoint digits (s : string) (acc : Z) : option Z :=
  match s with
  | EmptyString => Some acc
  | String c rest =>
      if (48 <=? Demo.value c) && (Demo.value c <=? 57)
      then digits rest (10 * acc + (Demo.value c - 48))
      else None
  end.

Definition read_int (s : string) : option Z :=
  match s with
  | EmptyString => None
  | String "-" rest =>
      match rest with
      | EmptyString => None
      | _ => Z.opp <$> digits rest 0
      end
  | _ => digits s 0
  end.

Definition demo_data_to_result (m : CalculatorHeader) : res (Z * list string) :=
  match split (data m) EmptyString with
  | first :: steps =>
      match read_int first with
      | Some v => Ok (v, steps)
      | None => Raise (UnpackError "not a result")
      end
  | [] => Raise (UnpackError "not a result")
  end.

Definition reader : Client.Reader Z :=
  {| Client.data_to_result := demo_data_to_result;
     Client.data_to_error := fun m => Ok (data m) |}.
End DemoReader.

(** * Properties *)

(** ** The store *)

Section StoreFacts.
Import Store.
Context {A : Type}.

Lemma for_each_append {B} (g : B -> A) r (xs : list B) (h : store A) :
  for_each xs (fun x => append r (g x)) h = (Ok tt, extend r (map g xs) h).
Proof.
  revert h. induction xs as [|x xs IH]; intros h; simpl.
  - unfold ret, extend. f_equal. symmetry. apply list_alter_id. intros l. apply app_nil_r.
  - unfold bind, append. rewrite IH. f_equal. unfold extend.
    rewrite list_alter_alter_eq. apply list_alter_ext; [|done].
    intros l _. simpl. by rewrite <- app_assoc.
Qed.

Lemma post_alloc (h g : store A) s : post h (h ++ g) s [].
Proof.
  split; [rewrite length_app; lia|]. intros r Hr. rewrite lookup_app_l by done.
  case_decide; [|done]. destruct (h !! r) as [l|]; simpl; [|done]. by rewrite app_nil_r.
Qed.

Lemma post_refl (h : store A) s : post h h s [].
Proof. rewrite <- (app_nil_r h) at 2. apply post_alloc. Qed.

Lemma post_extend (h : store A) s tr : post h (extend s tr h) s tr.
Proof.
  split; [unfold extend; rewrite length_alter; lia|]. intros r Hr. unfold extend.
  case_decide as E; [subst; apply list_lookup_alter_eq | by apply list_lookup_alter_ne].
Qed.

Lemma post_trans (h h1 h2 : store A) s t1 t2 :
  post h h1 s t1 -> post h1 h2 s t2 -> post h h2 s (t1 ++ t2).
Proof.
  intros [L1 P1] [L2 P2]. split; [lia|]. intros r Hr.
  rewrite P2 by lia. rewrite P1 by lia.
  case_decide; [|done]. destruct (h !! r); simpl; [|done]. by rewrite app_assoc.
Qed.

(** A callee that grows a list allocated after [h] leaves [h] alone. *)
Lemma post_frame (h H H' : store A) s r t0 t :
  post h H s t0 -> post H H' r t -> (length h <= r)%nat -> post h H' s t0.
Proof.
  intros [L1 P1] [L2 P2] Hr. split; [lia|]. intros q Hq.
  rewrite P2 by lia. rewrite decide_False by lia. by apply P1.
Qed.

Lemma post_read (H H' : store A) r t l :
  post H H' r t -> H !! r = Some l -> H' !! r = Some (l ++ t).
Proof.
  intros [L P] Hl. rewrite P by (by eapply lookup_lt_Some). rewrite decide_True by done.
  by rewrite Hl.
Qed.

Lemma lookup_fresh (h g : store A) l : (h ++ l :: g) !! length h = Some l.
Proof. by rewrite list_lookup_middle. Qed.

Lemma bind_new_list {C} (k : ref -> M (store A) C) h :
  bind new_list k h = k (length h) (h ++ [[]]).
Proof. reflexivity. Qed.

Lemma bind_read {C} r (k : list A -> M (store A) C) h :
  bind (read r) k h = k (default [] (h !! r)) h.
Proof. reflexivity. Qed.

Lemma bind_append {C} r a (k : unit -> M (store A) C) h :
  bind (append r a) k h = k tt (extend r [a] h).
Proof. reflexivity. Qed.

Lemma bind_for_each_append {B C} (g : B -> A) r xs (k : unit -> M (store A) C) h :
  bind (for_each xs (fun x => append r (g x))) k h = k tt (extend r (map g xs) h).
Proof. unfold bind. by rewrite for_each_append. Qed.
End StoreFacts.

Lemma bind_lift {S B C} (x : res B) (k : B -> M S C) s :
  bind (lift x) k s = match x with Ok b => k b s | Raise e => (Raise e, s) end.
Proof. by destruct x. Qed.

Lemma bind_ok {S B C} (m : M S B) (k : B -> M S C) s b s' :
  m s = (Ok b, s') -> bind m k s = k b s'.
Proof. unfold bind. by intros ->. Qed.

Lemma bind_raise {S B C} (m : M S B) (k : B -> M S C) s e s' :
  m s = (Raise e, s') -> bind m k s = (Raise e, s').
Proof. unfold bind. by intros ->. Qed.

(** ** The evaluator emits the prescribed trace *)

Ltac len := rewrite ?length_app, ?length_alter; simpl; lia.

Section EvaluatorFacts.
Context {num : Type}.
Import Store.

Lemma calculate_ok_binary (l : Expr num) op r :
  calculate_ok l -> calculate_ok r -> calculate_ok (BinaryExpr l op r).
Proof.
  intros IHl IHr steps h Hs. unfold refines, with_ref. cbn [calculate evaluate].
  rewrite !bind_new_list.
  set (H2 := (h ++ [[]]) ++ [[]]).
  assert (P2 : post h H2 steps []) by (unfold H2; rewrite <- app_assoc; apply post_alloc).
  assert (Ll : H2 !! length h = Some []) by (unfold H2; rewrite <- app_assoc; apply lookup_fresh).
  assert (Lr : H2 !! length (h ++ [[]]) = Some []) by (unfold H2; apply lookup_fresh).
  specialize (IHl (length h) H2). unfold refines, with_ref in IHl.
  destruct (evaluate l) as [[lv ltr]|ex].
  2: { destruct IHl as (H3 & tr & E & P); [unfold H2; len|].
       rewrite (bind_raise _ _ _ _ _ E). exists H3, []. split; [done|].
       eapply post_frame; eauto. }
  destruct IHl as (H3 & E & P3); [unfold H2; len|].
  rewrite (bind_ok _ _ _ _ _ E). cbv beta iota.
  rewrite bind_read, (post_read _ _ _ _ _ P3 Ll). unfold default, from_option, id. cbn [app].
  rewrite bind_for_each_append.
  set (t1 := map _ (removelast ltr)).
  set (H4 := extend steps t1 H3).
  assert (P4 : post h H4 steps t1).
  { change t1 with ([] ++ t1). eapply post_trans; [|apply post_extend].
    eapply post_frame; eauto. }
  assert (L4 : H4 !! length (h ++ [[]]) = Some []).
  { unfold H4, extend. rewrite list_lookup_alter_ne by len.
    destruct P3 as [_ P3]. rewrite P3 by (unfold H2; len).
    rewrite decide_False by len. done. }
  specialize (IHr (length (h ++ [[]])) H4). unfold refines, with_ref in IHr.
  destruct (evaluate r) as [[rv rtr]|ex].
  2: { destruct IHr as (H5 & tr & E5 & P5); [eapply lookup_lt_Some; eauto|].
       rewrite (bind_raise _ _ _ _ _ E5). exists H5, t1. split; [done|].
       eapply post_frame; eauto. len. }
  destruct IHr as (H5 & E5 & P5); [eapply lookup_lt_Some; eauto|].
  rewrite (bind_ok _ _ _ _ _ E5). cbv beta iota.
  rewrite bind_read, (post_read _ _ _ _ _ P5 L4). unfold default, from_option, id. cbn [app].
  rewrite bind_for_each_append, bind_append, bind_lift.
  set (t2 := map _ (removelast rtr)).
  assert (P6 : post h (extend steps [BinaryExpr (Number lv) op (Number rv)] (extend steps t2 H5))
                 steps (t1 ++ t2 ++ [BinaryExpr (Number lv) op (Number rv)])).
  { eapply post_trans; [eapply post_frame; eauto; len|].
    eapply post_trans; apply post_extend. }
  destruct (bin_function op lv rv) as [v|ex].
  - rewrite bind_append. eexists. split; [reflexivity|].
    replace (t1 ++ t2 ++ [BinaryExpr (Number lv) op (Number rv); Constant v])
      with ((t1 ++ t2 ++ [BinaryExpr (Number lv) op (Number rv)]) ++ [Constant v])
      by (by rewrite <- !app_assoc).
    eapply post_trans; [exact P6 | apply post_extend].
  - eexists _, _. split; [reflexivity | exact P6].
Qed.

Lemma calculate_ok_unary op (x : Expr num) : calculate_ok x -> calculate_ok (UnaryExpr op x).
Proof.
  intros IHx steps h Hs. unfold refines, with_ref. cbn [calculate evaluate].
  rewrite bind_new_list.
  specialize (IHx (length h) (h ++ [[]])). unfold refines, with_ref in IHx.
  destruct (evaluate x) as [[xv xtr]|ex].
  2: { destruct IHx as (H3 & tr & E & P); [len|].
       rewrite (bind_raise _ _ _ _ _ E). exists H3, []. split; [done|].
       eapply post_frame; eauto. apply post_alloc. }
  destruct IHx as (H3 & E & P3); [len|].
  rewrite (bind_ok _ _ _ _ _ E). cbv beta iota.
  rewrite bind_read, (post_read _ _ _ _ _ P3 (lookup_fresh h [] [])).
  unfold default, from_option, id. cbn [app].
  rewrite bind_for_each_append, bind_append, bind_lift.
  set (t1 := map _ (removelast xtr)).
  assert (P6 : post h (extend steps [UnaryExpr op (Number xv)] (extend steps t1 H3))
                 steps (t1 ++ [UnaryExpr op (Number xv)])).
  { change t1 with ([] ++ t1) at 2. rewrite <- app_assoc.
    eapply post_trans; [eapply post_frame; eauto; apply post_alloc|].
    eapply post_trans; apply post_extend. }
  destruct (un_function op xv) as [v|ex].
  - rewrite bind_append. eexists. split; [reflexivity|].
    replace (t1 ++ [UnaryExpr op (Number xv); Constant v])
      with ((t1 ++ [UnaryExpr op (Number xv)]) ++ [Constant v])
      by (by rewrite <- !app_assoc).
    eapply post_trans; [exact P6 | apply post_extend].
  - eexists _, _. split; [reflexivity | exact P6].
Qed.

(** The loop over the arguments, for any recursive call that is right
    on each of them. *)
Lemma calculate_args_ok (f : Function num) original steps rest :
  Forall calculate_ok rest ->
  forall args h, (steps < length h)%nat ->
    refines (calculate_args calculate f original steps rest args h) h steps
      (evaluate_args evaluate f original (length args) args rest).
Proof.
  induction 1 as [|a rest Ha _ IH]; intros args h Hs; unfold refines;
    cbn [calculate_args evaluate_args].
  { exists h. split; [done | apply post_refl]. }
  rewrite bind_new_list.
  specialize (Ha (length h) (h ++ [[]])). unfold refines, with_ref in Ha.
  destruct (evaluate a) as [[v atr]|ex].
  2: { destruct Ha as (H3 & tr & E & P); [len|].
       rewrite (bind_raise _ _ _ _ _ E). exists H3, []. split; [done|].
       eapply post_frame; eauto. apply post_alloc. }
  destruct Ha as (H3 & E & P3); [len|].
  rewrite (bind_ok _ _ _ _ _ E). cbv beta iota.
  rewrite bind_read, (post_read _ _ _ _ _ P3 (lookup_fresh h [] [])).
  unfold default, from_option, id. cbn [app].
  rewrite bind_for_each_append, Nat.add_1_r.
  set (t1 := map _ (removelast atr)).
  assert (P4 : post h (extend steps t1 H3) steps t1).
  { change t1 with ([] ++ t1) at 2.
    eapply post_trans; [eapply post_frame; eauto; apply post_alloc | apply post_extend]. }
  specialize (IH (args ++ [v]) (extend steps t1 H3)). unfold refines in IH.
  rewrite length_app, Nat.add_1_r in IH. cbn [length] in IH.
  destruct (evaluate_args _ _ _ _ _ _) as [[vs later]|ex].
  - destruct IH as (H5 & E5 & P5); [destruct P4; lia|].
    rewrite E5. exists H5. split; [done|].
    eapply post_trans; eauto.
  - destruct IH as (H5 & tr & E5 & P5); [destruct P4; lia|].
    rewrite E5. exists H5, (t1 ++ tr). split; [done|].
    eapply post_trans; eauto.
Qed.

Lemma calculate_ok_call (f : Function num) es :
  Forall calculate_ok es -> calculate_ok (FunctionCallExpr f es).
Proof.
  intros IH steps h Hs. unfold refines, with_ref. cbn [calculate evaluate].
  pose proof (calculate_args_ok f es steps es IH [] h Hs) as Ha. unfold refines in Ha.
  cbn [length] in Ha.
  destruct (evaluate_args _ _ _ _ _ _) as [[vs atr]|ex].
  2: { destruct Ha as (H3 & tr & E & P). rewrite (bind_raise _ _ _ _ _ E). by exists H3, tr. }
  destruct Ha as (H3 & E & P3). rewrite (bind_ok _ _ _ _ _ E).
  rewrite bind_append, bind_lift.
  assert (P6 : post h (extend steps [FunctionCallExpr f (map Number vs)] H3)
                 steps (atr ++ [FunctionCallExpr f (map Number vs)])).
  { eapply post_trans; [exact P3 | apply post_extend]. }
  destruct (fn_function f vs) as [v|ex].
  - rewrite bind_append. eexists. split; [reflexivity|].
    replace (atr ++ [FunctionCallExpr f (map Number vs); Constant v])
      with ((atr ++ [FunctionCallExpr f (map Number vs)]) ++ [Constant v])
      by (by rewrite <- !app_assoc).
    eapply post_trans; [exact P6 | apply post_extend].
  - eexists _, _. split; [reflexivity | exact P6].
Qed.

Lemma calculate_refines (e : Expr num) : calculate_ok e.
Proof.
  induction e using Expr_nested_ind.
  1-3: intros steps h Hs; eexists; split; [reflexivity | apply post_refl].
  - by apply calculate_ok_binary.
  - by apply calculate_ok_unary.
  - by apply calculate_ok_call.
Qed.
End EvaluatorFacts.

(** [calculate] starts with [type_fallback]; the three leaf cases of
    the model are that call followed by the branch for constants. *)
Lemma calculate_type_fallback {num} (e : Expr num) :
  calculate (type_fallback e) = calculate e.
Proof. by destruct e. Qed.

(** The nested trace of the specification: the left operand is reduced
    first. *)
Example nested_trace_rendering :
  match evaluate (BinaryExpr (BinaryExpr (Constant 1) ADD (Constant 2)) MUL (Constant 4)) with
  | Ok (v, tr) => (v, map (stringify str_int true) tr)
  | Raise _ => (0, [])
  end = (12, ["(1 + 2) * 4"; "3 * 4"; "12"]%string).
Proof. by vm_compute. Qed.

(** On a list of its own, as [process_request] calls it, [calculate]
    leaves exactly the prescribed trace there, whatever the store holds:
    the result depends on the expression alone. *)
Lemma calculate_on_new_list {num} (e : Expr num) (h : Store.store (Expr num)) :
  let run :=
    (let! steps := Store.new_list in
     let! (result, steps) := calculate e steps in
     let! got := Store.read steps in
     ret (result, got)) in
  match evaluate e with
  | Ok (v, tr) => exists h', run h = (Ok (v, tr), h')
  | Raise ex => exists h', run h = (Raise ex, h')
  end.
Proof.
  intros run. unfold run. rewrite bind_new_list.
  pose proof (calculate_refines e (length h) (h ++ [[]])) as R.
  unfold refines, with_ref in R.
  destruct (evaluate e) as [[v tr]|ex].
  - destruct R as (h' & E & P); [len|].
    rewrite (bind_ok _ _ _ _ _ E). cbv beta iota.
    rewrite bind_read, (post_read _ _ _ _ _ P (lookup_fresh h [] [])). by exists h'.
  - destruct R as (h' & tr & E & P); [len|].
    rewrite (bind_raise _ _ _ _ _ E). by exists h'.
Qed.

(** C1: for every expression, [calculate] appends to the list it is
    given exactly the steps prescribed per variant and returns the
    prescribed value and that list: for a binary expression the left
    operand's steps but the last, each wrapped with the operator and the
    original right operand, then the right operand's steps but the last,
    each wrapped with the left value and the operator, then the
    expression of the two values, then the constant of the result; for a
    call the arguments from left to right, each step but the last of the
    i-th argument in a call whose earlier positions hold values and
    whose later positions hold the original arguments, then the call on
    the values and the constant.  Every other list of the store is
    untouched.  If an evaluation rule raises, [calculate] raises the
    same exception.  For [2 + 3] the steps are rendered as ["2 + 3"] and
    ["5"] and the value is [5]. *)
Theorem calculate_emits_prescribed_trace {num} (e : Expr num)
    (steps : Store.ref) (h : Store.store (Expr num)) (l : list (Expr num)) (now : Z) :
  h !! steps = Some l ->
  match evaluate e with
  | Ok (v, tr) =>
      exists h', calculate e steps h = (Ok (v, steps), h')
        /\ h' !! steps = Some (l ++ tr)
        /\ forall r, (r < length h)%nat -> r <> steps -> h' !! r = h !! r
  | Raise ex =>
      exists h' tr, calculate e steps h = (Raise ex, h')
        /\ h' !! steps = Some (l ++ tr)
        /\ forall r, (r < length h)%nat -> r <> steps -> h' !! r = h !! r
  end
  /\ evaluate (BinaryExpr (Constant 2) ADD (Constant 3))
     = Ok (5, [BinaryExpr (Number 2) ADD (Number 3); Constant 5])
  /\ map (stringify str_int true) [BinaryExpr (Number 2) ADD (Number 3); Constant 5]
     = ["2 + 3"; "5"]%string
  /\ fst (@Server.process_request Z Demo.wire Demo.payload now Demo.request_2_plus_3 loaded)
     = Ok (@from_result Z Demo.payload now 5 ["2 + 3"; "5"]%string true (2 ^ 16 - 1)).
Proof.
  intros Hl. split; [|by vm_compute].
  assert (Hs : (steps < length h)%nat) by (by eapply lookup_lt_Some).
  pose proof (calculate_refines e steps h Hs) as R. unfold refines, with_ref in R.
  destruct (evaluate e) as [[v tr]|ex].
  - destruct R as (h' & E & P). exists h'. split; [done|].
    split; [by eapply post_read|].
    intros r Hr Hne. destruct P as [_ P]. rewrite P by done. by rewrite decide_False.
  - destruct R as (h' & tr & E & P). exists h', tr. split; [done|].
    split; [by eapply post_read|].
    intros r Hr Hne. destruct P as [_ P]. rewrite P by done. by rewrite decide_False.
Qed.

Lemma calculate_emits_prescribed_trace_witness :
  (loaded (num := Z)) !! default_steps = Some []
  /\ exists h',
       calculate (BinaryExpr (BinaryExpr (Constant 1) ADD (Constant 2)) MUL (Constant 4))
         default_steps loaded
       = (Ok (12, default_steps), h')
       /\ h' !! default_steps
          = Some [BinaryExpr (BinaryExpr (Number 1) ADD (Number 2)) MUL (Constant 4);
                  BinaryExpr (Number 3) MUL (Number 4);
                  Constant 12].
Proof.
  split; [reflexivity|].
  destruct (calculate_emits_prescribed_trace
              (BinaryExpr (BinaryExpr (Constant 1) ADD (Constant 2)) MUL (Constant 4))
              default_steps loaded [] 0 eq_refl)
    as [(h' & E & L & _) _].
  exists h'. split; [exact E | exact L].
Defined.

(** C2: the list that [calculate] takes by default is one object, made
    when the function is defined.  Two successive calls that leave
    [steps] out do not return the same steps: the second returns the
    steps of both, in the list that the first call returned. *)
Theorem calculate_default_list_is_shared :
  exists h1 h2,
    calculate_default (BinaryExpr (Constant 2) ADD (Constant 3)) loaded
    = (Ok (5, default_steps), h1)
    /\ h1 !! default_steps = Some [BinaryExpr (Number 2) ADD (Number 3); Constant 5]
    /\ calculate_default (BinaryExpr (Constant 2) ADD (Constant 3)) h1
       = (Ok (5, default_steps), h2)
    /\ h2 !! default_steps
       = Some [BinaryExpr (Number 2) ADD (Number 3); Constant 5;
               BinaryExpr (Number 2) ADD (Number 3); Constant 5].
Proof.
  eexists _, _. split; [by vm_compute|].
  split; [reflexivity|]. split; [by vm_compute|]. reflexivity.
Qed.

(** ** The connection handler of the server *)

Section ServerFacts.
Context `{Wire} {num : Type} `{Payload num}.
Import Store.

(** [process_request] always returns a response, and builds it with the
    cache policy and the cache control of the module. *)
Lemma process_request_response (t : Z) (request : CalculatorHeader) (h : store (Expr num)) :
  exists m h', Server.process_request t request h = (Ok m, h')
    /\ is_request m = false
    /\ cache_result m = Server.CACHE_POLICY
    /\ cache_control m = Server.CACHE_CONTROL
    /\ (status_code m = STATUS_OK \/ status_code m = STATUS_CLIENT_ERROR).
Proof.
  unfold Server.process_request. rewrite bind_new_list. unfold bind at 1, attempt.
  match goal with |- context [match ?run with (r, s') => _ end] => destruct run as [[[result steps]|e] h'] end;
    cbv beta iota.
  - rewrite bind_read. unfold ret. eexists _, _. split; [reflexivity|]. simpl. auto.
  - unfold ret. eexists _, _. split; [reflexivity|]. simpl. auto.
Qed.

(** A response to a request that is not one is a client error. *)
Lemma process_request_of_response (t : Z) (m : CalculatorHeader) (h : store (Expr num)) :
  is_request m = false ->
  Server.process_request t m h
  = (Ok (from_error t (TypeError "Received a response instead of a request")
           STATUS_CLIENT_ERROR Server.CACHE_POLICY Server.CACHE_CONTROL),
     h ++ [[]]).
Proof. intros Hm. unfold Server.process_request. rewrite bind_new_list, Hm. reflexivity. Qed.

Lemma unexpected_built v e : Forall Server.built (Server.unexpected v e).1.
Proof.
  unfold Server.unexpected. destruct (Server.sendall_error v); simpl; [|constructor].
  repeat constructor. eexists. split; [reflexivity|]. simpl. auto.
Qed.

Lemma reply_built v m :
  is_request m = false -> cache_result m = true -> cache_control m = 2 ^ 16 - 1 ->
  Forall Server.built (Server.reply v (pack m)).1.
Proof.
  intros. unfold Server.reply. destruct (Server.sendall v); [|apply unexpected_built].
  repeat constructor. by exists m.
Qed.

Lemma unexpected_control v e :
  (Server.unexpected v e).2 = Continue
  \/ (Server.unexpected v e).2 = Break /\ exists e', Server.sendall_error v = Raise e'.
Proof. unfold Server.unexpected. destruct (Server.sendall_error v); simpl; eauto. Qed.

Lemma reply_control v b :
  (Server.reply v b).2 = Continue
  \/ (Server.reply v b).2 = Break /\ exists e', Server.sendall_error v = Raise e'.
Proof. unfold Server.reply. destruct (Server.sendall v); simpl; auto using unexpected_control. Qed.

(** An iteration returns; it sends only responses built with the
    module's cache fields; and it leaves the loop only on an empty read,
    on the termination message, or when the error response cannot be
    sent. *)
Lemma iteration_total (v : Server.env) (h : store (Expr num)) :
  exists out c h', Server.iteration v h = (Ok (out, c), h')
    /\ Forall Server.built out
    /\ (c = Continue
        \/ c = Break
           /\ (Server.recv v = Ok ""%string
               \/ (exists d request, Server.recv v = Ok d /\ unpack d = Ok request
                     /\ is_request request = false /\ data request = "terminate"%string)
               \/ exists e, Server.sendall_error v = Raise e)).
Proof.
  unfold Server.iteration. destruct (Server.recv v) as [d|e] eqn:Er.
  2: { eexists _, _, h. split; [unfold ret; by rewrite <- surjective_pairing|].
       split; [apply unexpected_built|]. destruct (unexpected_control v e) as [->|[-> ?]]; auto. }
  destruct (String.eqb d "") eqn:Ed.
  { apply String.eqb_eq in Ed. subst. eexists _, _, h. split; [reflexivity|]. split; [constructor|]. auto. }
  destruct (unpack d) as [request|e] eqn:Eu.
  2: { eexists _, _, h. split; [unfold ret; by rewrite <- surjective_pairing|].
       split; [by apply reply_built|]. destruct (reply_control v (pack (from_error (Server.now v) e STATUS_CLIENT_ERROR Server.CACHE_POLICY Server.CACHE_CONTROL))) as [->|[-> ?]]; auto. }
  destruct (negb (is_request request) && String.eqb (data request) "terminate") eqn:Et.
  { apply andb_prop in Et as [Et1 Et2]. apply negb_true_iff in Et1. apply String.eqb_eq in Et2.
    eexists _, _, h. split; [reflexivity|]. split; [constructor|]. right. split; [done|].
    right. left. by exists d, request. }
  destruct (process_request_response (Server.now v) request h) as (m & h' & E & Hq & Hr & Hc & _).
  rewrite (bind_ok _ _ _ _ _ E). eexists _, _, h'.
  split; [unfold ret; by rewrite <- surjective_pairing|].
  split; [by apply reply_built|].
  destruct (reply_control v (pack m)) as [->|[-> ?]]; auto.
Qed.

(** The handler runs through whatever its calls return. *)
Lemma client_handler_total (vs : list Server.env) (h : store (Expr num)) :
  exists out en h', Server.client_handler vs h = (Ok (out, en), h') /\ Forall Server.built out.
Proof.
  revert h. induction vs as [|v vs IH]; intros h; cbn [Server.client_handler].
  { eexists _, _, h. split; [reflexivity | constructor]. }
  destruct (iteration_total v h) as (out & c & h1 & E & B & Hc).
  rewrite (bind_ok _ _ _ _ _ E). cbv beta iota.
  destruct Hc as [->|[-> _]].
  - destruct (IH h1) as (out' & en & h2 & E' & B'). rewrite (bind_ok _ _ _ _ _ E').
    eexists _, _, h2. split; [reflexivity|]. by apply Forall_app.
  - eexists _, _, h1. by split.
Qed.
End ServerFacts.

(** C4: the message that the client sends to terminate is a response
    whose payload is [EXIT]; the server looks for a response whose
    payload is [terminate].  It therefore takes the client's message for
    a misdirected response, answers it with a client error and stays in
    its loop. *)
Theorem client_termination_is_not_recognised `{Wire} {num : Type} `{Payload num}
    (v : Server.env) (t : Z) (h : Store.store (Expr num)) :
  let m := Client.termination_request t in
  Server.recv v = Ok (pack m) ->
  pack m <> ""%string ->
  unpack (pack m) = Ok m ->
  Server.sendall v = Ok tt ->
  Server.iteration v h
  = (Ok ([ToClient (pack (from_error (Server.now v)
                            (TypeError "Received a response instead of a request")
                            STATUS_CLIENT_ERROR true (2 ^ 16 - 1)))],
         Continue),
     h ++ [[]]).
Proof.
  intros m Er Hne Eu Es. unfold Server.iteration. rewrite Er.
  apply String.eqb_neq in Hne. rewrite Hne, Eu.
  replace (negb (is_request m) && String.eqb (data m) "terminate") with false by reflexivity.
  rewrite (bind_ok _ _ _ _ _ (process_request_of_response (Server.now v) m h eq_refl)).
  unfold ret, Server.reply. by rewrite Es.
Qed.

Lemma client_termination_is_not_recognised_witness :
  Demo.demo_unpack (Demo.demo_pack (Client.termination_request 1700000000))
  = Ok (Client.termination_request 1700000000)
  /\ @Server.iteration Z Demo.wire Demo.payload
       (Demo.reads (Demo.demo_pack (Client.termination_request 1700000000)) 1700000001) loaded
     = (Ok ([ToClient (Demo.demo_pack
                         (@from_error Demo.wire 1700000001
                            (TypeError "Received a response instead of a request")
                            STATUS_CLIENT_ERROR true (2 ^ 16 - 1)))],
            Continue),
        loaded ++ [[]]).
Proof.
  split; [by vm_compute|].
  apply (@client_termination_is_not_recognised Demo.wire Z Demo.payload
           (Demo.reads (Demo.demo_pack (Client.termination_request 1700000000)) 1700000001)
           1700000000 loaded);
    [reflexivity | discriminate | by vm_compute | reflexivity].
Defined.

(** C9: when the bytes read from the client do not decode, the handler
    answers with an error response of status [CLIENT_ERROR] and goes on
    with its loop.  The loop is left only on an empty read, on the
    termination message, or when the error response cannot be sent; no
    exception leaves it. *)
Theorem server_decode_failure_keeps_connection `{Wire} {num : Type} `{Payload num}
    (v : Server.env) (vs : list Server.env) (data_ : bytes) (e : exn)
    (h : Store.store (Expr num)) :
  Server.recv v = Ok data_ ->
  data_ <> ""%string ->
  unpack data_ = Raise e ->
  Server.sendall v = Ok tt ->
  let error_response :=
    from_error (Server.now v) e STATUS_CLIENT_ERROR Server.CACHE_POLICY Server.CACHE_CONTROL in
  status_code error_response = STATUS_CLIENT_ERROR
  /\ Server.iteration v h = (Ok ([ToClient (pack error_response)], Continue), h)
  /\ (exists out en h',
        Server.client_handler vs h = (Ok (out, en), h')
        /\ Server.client_handler (v :: vs) h = (Ok (ToClient (pack error_response) :: out, en), h'))
  /\ forall (v' : Server.env) (h1 : Store.store (Expr num)),
       exists out c h2, Server.iteration v' h1 = (Ok (out, c), h2)
         /\ (c = Continue
             \/ c = Break
                /\ (Server.recv v' = Ok ""%string
                    \/ (exists d request, Server.recv v' = Ok d /\ unpack d = Ok request
                          /\ is_request request = false /\ data request = "terminate"%string)
                    \/ exists e', Server.sendall_error v' = Raise e')).
Proof.
  intros Er Hne Eu Es error_response.
  assert (Ei : Server.iteration v h = (Ok ([ToClient (pack error_response)], Continue), h)).
  { unfold Server.iteration. rewrite Er. apply String.eqb_neq in Hne. rewrite Hne, Eu.
    unfold ret, Server.reply. by rewrite Es. }
  split; [reflexivity|]. split; [exact Ei|]. split.
  - destruct (client_handler_total vs h) as (out & en & h' & E & _).
    exists out, en, h'. split; [exact E|]. cbn [Server.client_handler].
    rewrite (bind_ok _ _ _ _ _ Ei). cbv beta iota. by rewrite (bind_ok _ _ _ _ _ E).
  - intros v' h1. destruct (iteration_total v' h1) as (out & c & h2 & E & _ & Hc). eauto.
Qed.

Lemma server_decode_failure_keeps_connection_witness :
  Demo.demo_unpack "abc" = Raise (UnpackError "truncated header")
  /\ @Server.iteration Z Demo.wire Demo.payload (Demo.reads "abc" 1700000001) loaded
     = (Ok ([ToClient (Demo.demo_pack
                         (@from_error Demo.wire 1700000001 (UnpackError "truncated header")
                            STATUS_CLIENT_ERROR true (2 ^ 16 - 1)))],
            Continue),
        loaded)
  /\ @Server.client_handler Z Demo.wire Demo.payload
       [Demo.reads "abc" 1700000001; Demo.reads "" 1700000002] loaded
     = (Ok ([ToClient (Demo.demo_pack
                         (@from_error Demo.wire 1700000001 (UnpackError "truncated header")
                            STATUS_CLIENT_ERROR true (2 ^ 16 - 1)))],
            Closed),
        loaded).
Proof.
  split; [reflexivity|].
  destruct (@server_decode_failure_keeps_connection Demo.wire Z Demo.payload
              (Demo.reads "abc" 1700000001) [Demo.reads "" 1700000002]
              "abc"%string (UnpackError "truncated header") loaded)
    as (_ & Ei & _); [reflexivity | discriminate | reflexivity | reflexivity |].
  split; [exact Ei | by vm_compute].
Defined.

(** C10: every response that the server sends, a result or an error
    response of either status, is built with [cache_result = True] and
    [cache_control = 65535]; such a response meets the conditions that
    the proxy puts on a response before it stores it, at any time. *)
Theorem server_responses_declare_max_cacheability `{Wire} {num : Type} `{Payload num}
    (v : Server.env) (vs : list Server.env) (request : CalculatorHeader)
    (e : exn) (code : status) (h : Store.store (Expr num)) (t : Z) :
  Server.CACHE_POLICY = true
  /\ Server.CACHE_CONTROL = 65535
  /\ (exists m h', Server.process_request t request h = (Ok m, h')
        /\ cache_result m = true /\ cache_control m = 65535)
  /\ (let m := from_error t e code Server.CACHE_POLICY Server.CACHE_CONTROL in
      cache_result m = true /\ cache_control m = 65535)
  /\ (exists out c h', Server.iteration v h = (Ok (out, c), h')
        /\ Forall (fun ev => exists m, ev = ToClient (pack m)
                     /\ cache_result m = true /\ cache_control m = 65535) out)
  /\ (exists out en h', Server.client_handler vs h = (Ok (out, en), h')
        /\ Forall (fun ev => exists m, ev = ToClient (pack m)
                     /\ cache_result m = true /\ cache_control m = 65535) out)
  /\ forall m now_, cache_result m = true -> cache_control m = 65535 ->
       cache_result m && Proxy.positive (Proxy.server_time_remaining m now_) = true.
Proof.
  assert (W : forall out, Forall Server.built out ->
            Forall (fun ev => exists m, ev = ToClient (pack m)
                      /\ cache_result m = true /\ cache_control m = 65535) out).
  { intros out B. eapply Forall_impl; [exact B|]. intros ev (m & -> & _ & ? & ?). by exists m. }
  split; [reflexivity|]. split; [reflexivity|]. split.
  { destruct (process_request_response t request h) as (m & h' & E & _ & Hr & Hc & _).
    by exists m, h'. }
  split; [by split|]. split.
  { destruct (iteration_total v h) as (out & c & h' & E & B & _). exists out, c, h'. auto. }
  split.
  { destruct (client_handler_total vs h) as (out & en & h' & E & B). exists out, en, h'. auto. }
  intros m now_ Hr Hc. rewrite Hr. unfold Proxy.server_time_remaining, Proxy.or_inf. by rewrite Hc.
Qed.

(** ** The caching proxy *)

Section ProxyFacts.
Context `{Wire}.
Import Proxy.

Ltac run := unfold bind, lift, attempt, send, ret, get_cache, store_response.

(** The [try] body on a request that is served from the cache. *)
Lemma handle_hit (v : env) (s : state) (d : bytes) (request entry : CalculatorHeader) :
  unpack d = Ok request ->
  data request <> "EXIT"%string ->
  cache s !! (data request, show_steps request) = Some entry ->
  fresh request entry (now v) = true ->
  handle v d s
  = (let! _ := send (sendall_client v) (ToClient (pack entry)) in ret Continue) s.
Proof.
  intros Eu Hx Hc Hf. apply String.eqb_neq in Hx. unfold handle.
  rewrite bind_lift, Eu, Hx. unfold bind at 1, get_cache. by rewrite Hc, Hf.
Qed.

(** The [try] body on a request that the cache cannot serve. *)
Lemma handle_miss (v : env) (s : state) (d : bytes) (request : CalculatorHeader) :
  unpack d = Ok request ->
  data request <> "EXIT"%string ->
  (forall entry, cache s !! (data request, show_steps request) = Some entry ->
                 fresh request entry (now v) = false) ->
  handle v d s
  = (let! _ := send (sendall_origin v) (ToOrigin d) in
     let! response_data := lift (recv_origin v) in
     let! response := lift (unpack response_data) in
     let! _ := (if cache_result request && cache_result response
                then store_response (data request, show_steps request) response
                else ret tt) in
     let! _ := send (sendall_client v) (ToClient response_data) in
     ret Continue) s.
Proof.
  intros Eu Hx Hc. apply String.eqb_neq in Hx. unfold handle.
  rewrite bind_lift, Eu, Hx. unfold bind at 1, get_cache.
  destruct (cache s !! _) as [entry|]; [|done]. by rewrite (Hc entry).
Qed.

(** An iteration changes the cache in one way only: it stores the
    decoded response of the origin under the key of the request, and
    only if both messages ask for it. *)
Lemma iteration_cache (v : env) (s : state) :
  cache (iteration v s).2 = cache s
  \/ exists d request rd response,
       recv_client v = Ok d /\ unpack d = Ok request
       /\ recv_origin v = Ok rd /\ unpack rd = Ok response
       /\ cache_result request = true /\ cache_result response = true
       /\ cache (iteration v s).2
          = <[(data request, show_steps request) := response]> (cache s).
Proof.
  unfold iteration, handle. run.
  destruct (recv_client v) as [d|] eqn:Ed; [|by left].
  destruct (String.eqb d ""); [by left|].
  destruct (unpack d) as [request|] eqn:Eu.
  2: { destruct (sendall_error v); by left. }
  destruct (String.eqb (data request) "EXIT").
  { destruct (sendall_origin v), (recv_origin v), (sendall_client v), (sendall_error v); by left. }
  destruct (match cache s !! _ with Some _ => _ | None => _ end).
  { destruct (sendall_client v), (sendall_error v); by left. }
  destruct (sendall_origin v); [|destruct (sendall_error v); by left].
  destruct (recv_origin v) as [rd|] eqn:Er; [|destruct (sendall_error v); by left].
  destruct (unpack rd) as [response|] eqn:Eu'; [|destruct (sendall_error v); by left].
  destruct (cache_result request) eqn:Eq, (cache_result response) eqn:Ep; simpl;
    destruct (sendall_client v), (sendall_error v); simpl; auto;
    right; by exists d, request, rd, response.
Qed.

(** [process_request] changes the cache in one way only, and then all
    four conditions hold. *)
Lemma process_request_cache (v : fetch_env) (request : CalculatorHeader) (s : state) :
  cache (process_request v request s).2 = cache s
  \/ exists rd response,
       fetch_recv v = Ok rd /\ unpack rd = Ok response
       /\ cache_result request = true /\ cache_result response = true
       /\ positive (server_time_remaining response (time_store v)) = true
       /\ positive (client_time_remaining request response (time_store v)) = true
       /\ cache (process_request v request s).2
          = <[(data request, show_steps request) := response]> (cache s).
Proof.
  unfold process_request. run.
  destruct (is_request request); [|by left]. simpl.
  destruct (match match cache s !! _ with Some _ => _ | None => _ end with
            | Some _ => _ | None => _ end); [by left|].
  destruct (match connect v with Ok _ => _ | Raise _ => _ end); [|by left].
  destruct (fetch_sendall v); [|by left].
  destruct (fetch_recv v) as [rd|] eqn:Er; [|by left].
  destruct (unpack rd) as [response|] eqn:Eu; [|by left].
  destruct (is_request response); [by left|].
  destruct (cache_result request) eqn:Eq, (cache_result response) eqn:Ep; simpl; auto.
  destruct (positive (server_time_remaining _ _)) eqn:E1; simpl; auto.
  destruct (positive (client_time_remaining _ _ _)) eqn:E2; simpl; auto.
  right. by exists rd, response.
Qed.
End ProxyFacts.

Section ProxyExchange.
Context `{Wire}.
Import Proxy.

Ltac run := unfold bind, lift, attempt, send, ret, get_cache, store_response.

(** An iteration on bytes that are not empty is the [try] body and, if
    it raises, the [except] clause. *)
Lemma iteration_unfold (v : env) (s : state) (d : bytes) :
  recv_client v = Ok d -> d <> ""%string ->
  iteration v s
  = match handle v d s with
    | (Ok c, s') => (Ok c, s')
    | (Raise e, s') =>
        (let! _ := send (sendall_error v) (ToClient (pack (proxy_error v e))) in
         ret Continue) s'
    end.
Proof.
  intros Er Hne. apply String.eqb_neq in Hne. unfold iteration.
  rewrite bind_lift, Er, Hne. unfold bind at 1, attempt.
  by destruct (handle v d s) as [[c|e] s'].
Qed.

(** [process_request] on a request that its cache serves. *)
Lemma process_request_hit (v : fetch_env) (s : state) (request entry : CalculatorHeader) :
  is_request request = true ->
  cache_control request <> 0 ->
  cache s !! (data request, show_steps request) = Some entry ->
  fresh request entry (time_lookup v) = true ->
  process_request v request s
  = (Ok (entry, server_time_remaining entry (time_lookup v),
         client_time_remaining request entry (time_lookup v), true, false, false), s).
Proof.
  intros Hq Hcc Hc Hf. apply Z.eqb_neq in Hcc. unfold process_request.
  rewrite Hq. cbn [negb]. unfold bind at 1, get_cache. rewrite Hc, Hcc. cbn [negb]. by rewrite Hf.
Qed.

(** [process_request] goes to the origin when the request asks for a
    reload, when its key is not in the cache, and when the entry is not
    fresh. *)
Lemma process_request_fetch (v : fetch_env) (s : state) (request : CalculatorHeader) :
  is_request request = true ->
  (cache_control request = 0
   \/ forall entry, cache s !! (data request, show_steps request) = Some entry ->
                    fresh request entry (time_lookup v) = false) ->
  connect v = Ok tt ->
  fetch_sendall v = Ok tt ->
  sent (process_request v request s).2 = sent s ++ [ToOrigin (pack request)].
Proof.
  intros Hq Hmiss Hc Hs. unfold process_request. rewrite Hq. cbn [negb].
  unfold bind at 1, get_cache.
  assert (Hhit : match
                   match cache s !! (data request, show_steps request) with
                   | Some response => if negb (cache_control request =? 0) then Some response else None
                   | None => None
                   end
                 with
                 | Some response => if fresh request response (time_lookup v) then Some response else None
                 | None => None
                 end = None).
  { destruct Hmiss as [->|Hmiss]; [by destruct (cache s !! _)|].
    destruct (cache s !! _) as [entry|]; [|done].
    destruct (negb _); [|done]. by rewrite Hmiss. }
  rewrite Hhit. run. rewrite Hc, Hs.
  destruct (fetch_recv v) as [rd|]; [|done].
  destruct (unpack rd) as [response|]; [|done].
  destruct (is_request response); [done|].
  by destruct (_ && _).
Qed.

(** [process_request] on a reload never answers from its cache. *)
Lemma process_request_reload (v : fetch_env) (s : state) (request : CalculatorHeader) :
  cache_control request = 0 ->
  match (process_request v request s).1 with
  | Ok (_, _, _, from_cache, _, _) => from_cache = false
  | Raise _ => True
  end.
Proof.
  intros Hcc. unfold process_request. run. rewrite Hcc.
  destruct (is_request request); [|done]. simpl.
  assert (Hf : match cache s !! (data request, show_steps request) with
               | Some _ => None | None => None end = @None CalculatorHeader)
    by (by destruct (cache s !! _)).
  rewrite Hf.
  destruct (match connect v with Ok _ => _ | Raise _ => _ end); [|done].
  destruct (fetch_sendall v); [|done].
  destruct (fetch_recv v) as [rd|]; [|done].
  destruct (unpack rd) as [response|]; [|done].
  destruct (is_request response); [done|].
  by destruct (_ && _).
Qed.

(** After its round trip, [process_request] stores the response under
    the key of the request exactly when both messages ask for it and
    both remaining times, taken from the response's time stamp, are
    positive. *)
Lemma process_request_store_condition (v : fetch_env) (s : state)
    (request response : CalculatorHeader) (rd : bytes) :
  is_request request = true ->
  (cache_control request = 0
   \/ forall entry, cache s !! (data request, show_steps request) = Some entry ->
                    fresh request entry (time_lookup v) = false) ->
  connect v = Ok tt -> fetch_sendall v = Ok tt ->
  fetch_recv v = Ok rd -> unpack rd = Ok response -> is_request response = false ->
  let age := time_store v - unix_time_stamp response in
  let stored :=
    cache_result request && cache_result response
    && (positive (minus (or_inf (cache_control response)) age)
        && positive (minus (or_inf (cache_control request)) age)) in
  exists was_stale,
    process_request v request s
    = (Ok (response, server_time_remaining response (time_store v),
           client_time_remaining request response (time_store v), false, was_stale, stored),
       {| cache := if stored
                   then <[(data request, show_steps request) := response]> (cache s)
                   else cache s;
          sent := sent s ++ [ToOrigin (pack request)] |}).
Proof.
  intros Hq Hmiss Hc Hs Hr Hu Hp age stored. unfold process_request. rewrite Hq. cbn [negb].
  unfold bind at 1, get_cache.
  assert (Hhit : match
                   match cache s !! (data request, show_steps request) with
                   | Some response => if negb (cache_control request =? 0) then Some response else None
                   | None => None
                   end
                 with
                 | Some response => if fresh request response (time_lookup v) then Some response else None
                 | None => None
                 end = None).
  { destruct Hmiss as [->|Hmiss]; [by destruct (cache s !! _)|].
    destruct (cache s !! _) as [entry|]; [|done].
    destruct (negb _); [|done]. by rewrite Hmiss. }
  rewrite Hhit. run. rewrite Hc, Hs, Hr, Hu, Hp.
  eexists. unfold server_time_remaining, client_time_remaining. fold age. fold stored.
  by destruct stored.
Qed.
End ProxyExchange.

(** C6: with an entry under the key of the request, the proxy's handler
    takes [age = now - entry.unix_time_stamp], the entry's and the
    request's cache control less the age, with the largest cache control
    standing for infinity, and answers with the stored entry, without a
    word to the origin, exactly when both remainders are positive;
    otherwise it forwards the request to the origin.  An entry with
    cache control 100 stamped [T], for a request that grants at least as
    much, is served at [T + 99] and refetched at [T + 101].
    [process_request] decides in the same way for a request whose cache
    control is not 0. *)
Theorem freshness_decides_cache_hit `{Wire} (v : Proxy.env) (v' : Proxy.fetch_env)
    (s : Proxy.state) (d : bytes) (request entry : CalculatorHeader) :
  Proxy.recv_client v = Ok d ->
  d <> ""%string ->
  unpack d = Ok request ->
  data request <> "EXIT"%string ->
  Proxy.cache s !! (data request, show_steps request) = Some entry ->
  let age := fun now_ => now_ - unix_time_stamp entry in
  let or_infinity := fun cc =>
    if cc =? MAX_CACHE_CONTROL then Proxy.Infinite else Proxy.Finite cc in
  let server_remaining := fun now_ =>
    Proxy.minus (or_infinity (cache_control entry)) (age now_) in
  let client_remaining := fun now_ =>
    Proxy.minus (or_infinity (cache_control request)) (age now_) in
  let both := fun now_ =>
    Proxy.positive (server_remaining now_) && Proxy.positive (client_remaining now_) in
  (both (Proxy.now v) = true ->
     (Proxy.sendall_client v = Ok tt ->
        Proxy.iteration v s
        = (Ok Continue,
           {| Proxy.cache := Proxy.cache s;
              Proxy.sent := Proxy.sent s ++ [ToClient (pack entry)] |}))
     /\ (forall b, ToOrigin b ∈ Proxy.sent (Proxy.iteration v s).2 -> ToOrigin b ∈ Proxy.sent s)
     /\ Proxy.cache (Proxy.iteration v s).2 = Proxy.cache s)
  /\ (both (Proxy.now v) = false ->
      Proxy.sendall_origin v = Ok tt ->
      exists rest, Proxy.sent (Proxy.iteration v s).2 = Proxy.sent s ++ ToOrigin d :: rest)
  /\ (cache_control entry = 100 -> 100 <= cache_control request ->
      both (unix_time_stamp entry + 99) = true
      /\ both (unix_time_stamp entry + 101) = false)
  /\ (is_request request = true -> cache_control request <> 0 ->
      (both (Proxy.time_lookup v') = true ->
         Proxy.process_request v' request s
         = (Ok (entry, server_remaining (Proxy.time_lookup v'),
                client_remaining (Proxy.time_lookup v'), true, false, false), s))
      /\ (both (Proxy.time_lookup v') = false ->
          Proxy.connect v' = Ok tt -> Proxy.fetch_sendall v' = Ok tt ->
          Proxy.sent (Proxy.process_request v' request s).2
          = Proxy.sent s ++ [ToOrigin (pack request)])).
Proof.
  intros Er Hne Eu Hx Hc age or_infinity server_remaining client_remaining both.
  assert (Hboth : forall t, both t = Proxy.fresh request entry t) by reflexivity.
  split; [|split; [|split]].
  - intros Hf. rewrite Hboth in Hf.
    rewrite (iteration_unfold v s d Er Hne), (handle_hit v s d request entry Eu Hx Hc Hf).
    unfold bind, Proxy.send, ret.
    split; [by intros ->|].
    destruct (Proxy.sendall_client v); simpl; [|destruct (Proxy.sendall_error v); simpl].
    all: split; [|done]; intros b; rewrite ?elem_of_app, ?list_elem_of_singleton;
      try (intros [?|?]; [done | discriminate]); done.
  - intros Hf Hs. rewrite Hboth in Hf.
    rewrite (iteration_unfold v s d Er Hne), (handle_miss v s d request Eu Hx).
    2: { intros entry' Hc'. rewrite Hc in Hc'. by injection Hc' as <-. }
    unfold bind, lift, Proxy.send, Proxy.store_response, ret. rewrite Hs.
    destruct (Proxy.recv_origin v) as [rd|];
      [|destruct (Proxy.sendall_error v); simpl; eexists; rewrite <- ?app_assoc; reflexivity].
    destruct (unpack rd) as [response|];
      [|destruct (Proxy.sendall_error v); simpl; eexists; rewrite <- ?app_assoc; reflexivity].
    destruct (cache_result request && cache_result response); simpl;
      destruct (Proxy.sendall_client v); simpl;
      try destruct (Proxy.sendall_error v); simpl;
      eexists; rewrite <- ?app_assoc; reflexivity.
  - intros H100 Hreq. unfold both, server_remaining, client_remaining, or_infinity, age.
    rewrite H100. change (100 =? MAX_CACHE_CONTROL) with false. cbv iota.
    unfold Proxy.minus at 1 3, Proxy.positive at 1 3.
    destruct (cache_control request =? MAX_CACHE_CONTROL); simpl; split;
      rewrite ?andb_true_iff, ?andb_false_iff, ?Z.ltb_lt, ?Z.ltb_ge; try split; try lia;
      left; lia.
  - intros Hq Hcc. split.
    + intros Hf. rewrite Hboth in Hf. by apply process_request_hit.
    + intros Hf Hco Hs. rewrite Hboth in Hf. apply process_request_fetch; try done.
      right. intros entry' Hc'. rewrite Hc in Hc'. by injection Hc' as <-.
Qed.

Lemma freshness_decides_cache_hit_witness :
  Demo.demo_unpack (Demo.demo_pack Demo.request_2_plus_3) = Ok Demo.request_2_plus_3
  /\ Proxy.cache (Demo.holding Demo.request_2_plus_3 (Demo.answer 1700000000 true 100))
       !! (data Demo.request_2_plus_3, show_steps Demo.request_2_plus_3)
     = Some (Demo.answer 1700000000 true 100)
  /\ @Proxy.iteration Demo.wire (Demo.exchange Demo.request_2_plus_3 "" 1700000099)
       (Demo.holding Demo.request_2_plus_3 (Demo.answer 1700000000 true 100))
     = (Ok Continue,
        {| Proxy.cache :=
             Proxy.cache (Demo.holding Demo.request_2_plus_3 (Demo.answer 1700000000 true 100));
           Proxy.sent := [ToClient (Demo.demo_pack (Demo.answer 1700000000 true 100))] |})
  /\ exists rest,
       Proxy.sent (@Proxy.iteration Demo.wire
                     (Demo.exchange Demo.request_2_plus_3 "" 1700000101)
                     (Demo.holding Demo.request_2_plus_3 (Demo.answer 1700000000 true 100))).2
       = ToOrigin (Demo.demo_pack Demo.request_2_plus_3) :: rest.
Proof.
  split; [by vm_compute|]. split; [by vm_compute|]. split.
  - destruct (@freshness_decides_cache_hit Demo.wire
                (Demo.exchange Demo.request_2_plus_3 "" 1700000099)
                (Demo.fetch "" 1700000099)
                (Demo.holding Demo.request_2_plus_3 (Demo.answer 1700000000 true 100))
                (Demo.demo_pack Demo.request_2_plus_3)
                Demo.request_2_plus_3 (Demo.answer 1700000000 true 100))
      as [Hhit _]; [reflexivity | discriminate | by vm_compute | discriminate | by vm_compute |].
    destruct Hhit as [Hsend _]; [by vm_compute|]. apply Hsend. reflexivity.
  - destruct (@freshness_decides_cache_hit Demo.wire
                (Demo.exchange Demo.request_2_plus_3 "" 1700000101)
                (Demo.fetch "" 1700000101)
                (Demo.holding Demo.request_2_plus_3 (Demo.answer 1700000000 true 100))
                (Demo.demo_pack Demo.request_2_plus_3)
                Demo.request_2_plus_3 (Demo.answer 1700000000 true 100))
      as (_ & Hmiss & _); [reflexivity | discriminate | by vm_compute | discriminate | by vm_compute |].
    apply Hmiss; [by vm_compute | reflexivity].
Defined.

(** C7: a response that says [cache_result = False] is not stored,
    whatever the request asks for: after the exchange the cache is the
    cache of before.  This holds for the handler's loop and for
    [process_request]. *)
Theorem response_no_store_is_respected `{Wire} (v : Proxy.env) (v' : Proxy.fetch_env)
    (s : Proxy.state) (request response : CalculatorHeader) (rd : bytes) :
  unpack rd = Ok response ->
  cache_result response = false ->
  (Proxy.recv_origin v = Ok rd -> Proxy.cache (Proxy.iteration v s).2 = Proxy.cache s)
  /\ (Proxy.fetch_recv v' = Ok rd ->
      Proxy.cache (Proxy.process_request v' request s).2 = Proxy.cache s).
Proof.
  intros Eu Hno. split; intros Er.
  - destruct (iteration_cache v s) as [E|(d & q & rd' & p & _ & _ & Er' & Eu' & _ & Hp & _)];
      [done|]. congruence.
  - destruct (process_request_cache v' request s) as [E|(rd' & p & Er' & Eu' & _ & Hp & _)];
      [done|]. congruence.
Qed.

Lemma response_no_store_is_respected_witness :
  Demo.demo_unpack (Demo.demo_pack (Demo.answer 1700000000 false 65535))
  = Ok (Demo.answer 1700000000 false 65535)
  /\ cache_result (Demo.answer 1700000000 false 65535) = false
  /\ cache_result Demo.request_2_plus_3 = true
  /\ Proxy.cache
       (@Proxy.iteration Demo.wire
          (Demo.exchange Demo.request_2_plus_3
             (Demo.demo_pack (Demo.answer 1700000000 false 65535)) 1700000000)
          Demo.empty).2
     = Proxy.cache Demo.empty
  /\ Proxy.sent
       (@Proxy.iteration Demo.wire
          (Demo.exchange Demo.request_2_plus_3
             (Demo.demo_pack (Demo.answer 1700000000 false 65535)) 1700000000)
          Demo.empty).2
     = [ToOrigin (Demo.demo_pack Demo.request_2_plus_3);
        ToClient (Demo.demo_pack (Demo.answer 1700000000 false 65535))].
Proof.
  split; [by vm_compute|]. split; [reflexivity|]. split; [reflexivity|]. split; [|by vm_compute].
  destruct (@response_no_store_is_respected Demo.wire
              (Demo.exchange Demo.request_2_plus_3
                 (Demo.demo_pack (Demo.answer 1700000000 false 65535)) 1700000000)
              (Demo.fetch "" 0) Demo.empty Demo.request_2_plus_3
              (Demo.answer 1700000000 false 65535)
              (Demo.demo_pack (Demo.answer 1700000000 false 65535)))
    as [Hloop _]; [by vm_compute | reflexivity |].
  apply Hloop. reflexivity.
Defined.

(** What the handler does with the cache after a round trip: it looks
    at the two [cache_result] flags and at nothing else. *)
Lemma handler_store_condition `{Wire} (v : Proxy.env) (s : Proxy.state) (d rd : bytes)
    (request response : CalculatorHeader) :
  Proxy.recv_client v = Ok d -> d <> ""%string ->
  unpack d = Ok request -> data request <> "EXIT"%string ->
  (forall entry, Proxy.cache s !! (data request, show_steps request) = Some entry ->
                 Proxy.fresh request entry (Proxy.now v) = false) ->
  Proxy.sendall_origin v = Ok tt ->
  Proxy.recv_origin v = Ok rd ->
  unpack rd = Ok response ->
  Proxy.cache (Proxy.iteration v s).2
  = if cache_result request && cache_result response
    then <[(data request, show_steps request) := response]> (Proxy.cache s)
    else Proxy.cache s.
Proof.
  intros Er Hne Eu Hx Hmiss Hs Hr Hu.
  rewrite (iteration_unfold v s d Er Hne), (handle_miss v s d request Eu Hx Hmiss).
  unfold bind, lift, Proxy.send, Proxy.store_response, ret. rewrite Hs, Hr, Hu.
  destruct (cache_result request && cache_result response); simpl;
    destruct (Proxy.sendall_client v); simpl; try done;
    destruct (Proxy.sendall_error v); done.
Qed.

(** C3: after a round trip the handler of the proxy stores the response
    when the request and the response both say [cache_result], and
    does not look at the remaining times: a response whose window for
    the client is not positive is stored all the same.
    [process_request], which has the four conditions, is not called. *)
Theorem handler_stores_without_freshness_check `{Wire} (v : Proxy.env) (s : Proxy.state)
    (d rd : bytes) (request response : CalculatorHeader) :
  Proxy.recv_client v = Ok d -> d <> ""%string ->
  unpack d = Ok request -> data request <> "EXIT"%string ->
  (forall entry, Proxy.cache s !! (data request, show_steps request) = Some entry ->
                 Proxy.fresh request entry (Proxy.now v) = false) ->
  Proxy.sendall_origin v = Ok tt ->
  Proxy.recv_origin v = Ok rd ->
  unpack rd = Ok response ->
  cache_result request = true ->
  cache_result response = true ->
  Proxy.positive (Proxy.client_time_remaining request response (Proxy.now v)) = false ->
  Proxy.cache (Proxy.iteration v s).2 !! (data request, show_steps request) = Some response.
Proof.
  intros Er Hne Eu Hx Hmiss Hs Hr Hu Hq Hp _.
  rewrite (handler_store_condition v s d rd request response) by done.
  rewrite Hq, Hp. apply lookup_insert_eq.
Qed.

Lemma handler_stores_without_freshness_check_witness :
  Demo.demo_unpack (Demo.demo_pack Demo.reload_request) = Ok Demo.reload_request
  /\ Demo.demo_unpack (Demo.demo_pack (Demo.answer 1700000000 true 65535))
     = Ok (Demo.answer 1700000000 true 65535)
  /\ Proxy.client_time_remaining Demo.reload_request (Demo.answer 1700000000 true 65535)
       1700000000
     = Proxy.Finite 0
  /\ Proxy.cache
       (@Proxy.iteration Demo.wire
          (Demo.exchange Demo.reload_request
             (Demo.demo_pack (Demo.answer 1700000000 true 65535)) 1700000000)
          Demo.empty).2
       !! (data Demo.reload_request, show_steps Demo.reload_request)
     = Some (Demo.answer 1700000000 true 65535).
Proof.
  split; [by vm_compute|]. split; [by vm_compute|]. split; [reflexivity|].
  apply (@handler_stores_without_freshness_check Demo.wire
           (Demo.exchange Demo.reload_request
              (Demo.demo_pack (Demo.answer 1700000000 true 65535)) 1700000000)
           Demo.empty (Demo.demo_pack Demo.reload_request)
           (Demo.demo_pack (Demo.answer 1700000000 true 65535))
           Demo.reload_request (Demo.answer 1700000000 true 65535));
    [reflexivity | discriminate | by vm_compute | discriminate
    | intros entry Hl; vm_compute in Hl; discriminate
    | reflexivity | reflexivity | by vm_compute | reflexivity | reflexivity | reflexivity].
Defined.

(** C5: the handler of the proxy does not test the request's cache
    control for 0 before it looks into the cache.  A reload request
    whose key has an entry stamped later than the proxy's clock, and
    still fresh for the server, is answered from the cache, and the
    origin is not contacted. *)
Theorem reload_request_is_served_from_cache `{Wire} (v : Proxy.env) (s : Proxy.state)
    (d : bytes) (request entry : CalculatorHeader) :
  Proxy.recv_client v = Ok d -> d <> ""%string ->
  unpack d = Ok request -> data request <> "EXIT"%string ->
  cache_control request = 0 ->
  Proxy.cache s !! (data request, show_steps request) = Some entry ->
  Proxy.now v < unix_time_stamp entry ->
  Proxy.positive (Proxy.server_time_remaining entry (Proxy.now v)) = true ->
  Proxy.sendall_client v = Ok tt ->
  Proxy.iteration v s
  = (Ok Continue,
     {| Proxy.cache := Proxy.cache s;
        Proxy.sent := Proxy.sent s ++ [ToClient (pack entry)] |}).
Proof.
  intros Er Hne Eu Hx Hcc Hc Hlt Hsrv Hs.
  assert (Hf : Proxy.fresh request entry (Proxy.now v) = true).
  { unfold Proxy.fresh. rewrite Hsrv. unfold Proxy.client_time_remaining. rewrite Hcc.
    simpl. apply Z.ltb_lt. lia. }
  rewrite (iteration_unfold v s d Er Hne), (handle_hit v s d request entry Eu Hx Hc Hf).
  unfold bind, Proxy.send, ret. by rewrite Hs.
Qed.

Lemma reload_request_is_served_from_cache_witness :
  Demo.demo_unpack (Demo.demo_pack Demo.reload_request) = Ok Demo.reload_request
  /\ cache_control Demo.reload_request = 0
  /\ Proxy.cache (Demo.holding Demo.reload_request (Demo.answer 1700000010 true 65535))
       !! (data Demo.reload_request, show_steps Demo.reload_request)
     = Some (Demo.answer 1700000010 true 65535)
  /\ @Proxy.iteration Demo.wire
       (Demo.exchange Demo.reload_request "" 1700000000)
       (Demo.holding Demo.reload_request (Demo.answer 1700000010 true 65535))
     = (Ok Continue,
        {| Proxy.cache :=
             Proxy.cache (Demo.holding Demo.reload_request (Demo.answer 1700000010 true 65535));
           Proxy.sent := [ToClient (Demo.demo_pack (Demo.answer 1700000010 true 65535))] |}).
Proof.
  split; [by vm_compute|]. split; [reflexivity|]. split; [by vm_compute|].
  apply (@reload_request_is_served_from_cache Demo.wire
           (Demo.exchange Demo.reload_request "" 1700000000)
           (Demo.holding Demo.reload_request (Demo.answer 1700000010 true 65535))
           (Demo.demo_pack Demo.reload_request)
           Demo.reload_request (Demo.answer 1700000010 true 65535));
    [reflexivity | discriminate | by vm_compute | discriminate | reflexivity
    | by vm_compute | reflexivity | reflexivity | reflexivity].
Defined.

(** C8, as the specification states it, fails where the connection to
    the origin is refused: the handler returns, and its requester, who
    has a request to send, is sent nothing. *)
Lemma refused_origin_connection_is_not_reported :
  ~ exists m, status_code m = STATUS_SERVER_ERROR
      /\ ToClient (Demo.demo_pack m)
         ∈ Proxy.sent (@Proxy.client_handler Demo.wire (Raise ConnectionRefusedError)
                         [Demo.exchange Demo.request_2_plus_3 "" 1700000000]
                         Demo.empty).2.
Proof. intros (m & _ & Hin). simpl in Hin. by apply elem_of_nil in Hin. Qed.

(** C8, amended: the connection to the origin is made once, when the
    client connects; if it is refused the handler releases the client's
    connection without a response, and the cache is untouched.  If the
    origin's response to a forwarded request cannot be decoded, the
    handler sends its requester an error response of status
    [SERVER_ERROR], stays in its loop, and leaves the cache as it was.
    [process_request] raises [CalculatorServerError] on a refused
    connection and [CalculatorClientError] on a response that cannot be
    decoded, and leaves the cache as it was. *)
Theorem origin_failure_handling `{Wire} (v : Proxy.env) (v' : Proxy.fetch_env)
    (vs : list Proxy.env) (s : Proxy.state) (d rd : bytes)
    (request : CalculatorHeader) (e : exn) :
  (forall entry, Proxy.cache s !! (data request, show_steps request) = Some entry ->
                 Proxy.fresh request entry (Proxy.now v) = false) ->
  (forall entry, Proxy.cache s !! (data request, show_steps request) = Some entry ->
                 Proxy.fresh request entry (Proxy.time_lookup v') = false) ->
  unpack rd = Raise e ->
  Proxy.client_handler (Raise ConnectionRefusedError) vs s = (Closed, s)
  /\ (Proxy.recv_client v = Ok d -> d <> ""%string ->
      unpack d = Ok request -> data request <> "EXIT"%string ->
      Proxy.sendall_origin v = Ok tt ->
      Proxy.recv_origin v = Ok rd ->
      Proxy.sendall_error v = Ok tt ->
      status_code (Proxy.proxy_error v e) = STATUS_SERVER_ERROR
      /\ Proxy.iteration v s
         = (Ok Continue,
            {| Proxy.cache := Proxy.cache s;
               Proxy.sent := Proxy.sent s
                             ++ [ToOrigin d; ToClient (pack (Proxy.proxy_error v e))] |}))
  /\ (is_request request = true ->
      (Proxy.connect v' = Raise ConnectionRefusedError ->
       Proxy.process_request v' request s
       = (Raise (CalculatorServerError
                   "Connection refused by server and the request was not in the cache/it was stale"),
          s))
      /\ (Proxy.connect v' = Ok tt -> Proxy.fetch_sendall v' = Ok tt ->
          Proxy.fetch_recv v' = Ok rd ->
          Proxy.process_request v' request s
          = (Raise (CalculatorClientErrorFrom "Error while unpacking request" e),
             {| Proxy.cache := Proxy.cache s;
                Proxy.sent := Proxy.sent s ++ [ToOrigin (pack request)] |}))).
Proof.
  intros Hmiss Hmiss' Hu. split; [reflexivity|]. split.
  - intros Er Hne Eu Hx Hs Hr He. split; [reflexivity|].
    rewrite (iteration_unfold v s d Er Hne), (handle_miss v s d request Eu Hx Hmiss).
    unfold bind, lift, Proxy.send, ret. rewrite Hs, Hr, Hu, He. simpl.
    by rewrite <- app_assoc.
  - intros Hq.
    assert (Hhit : match
                     match Proxy.cache s !! (data request, show_steps request) with
                     | Some response =>
                         if negb (cache_control request =? 0) then Some response else None
                     | None => None
                     end
                   with
                   | Some response =>
                       if Proxy.fresh request response (Proxy.time_lookup v')
                       then Some response else None
                   | None => None
                   end = None).
    { destruct (Proxy.cache s !! _) as [entry|] eqn:Hc; [|done].
      destruct (negb _); [|done]. by rewrite (Hmiss' entry). }
    split.
    + intros Hc. unfold Proxy.process_request. rewrite Hq. cbn [negb].
      unfold bind at 1, Proxy.get_cache. rewrite Hhit, Hc. reflexivity.
    + intros Hc Hs Hr. unfold Proxy.process_request. rewrite Hq. cbn [negb].
      unfold bind at 1, Proxy.get_cache. rewrite Hhit.
      unfold bind, lift, Proxy.send. by rewrite Hc, Hs, Hr, Hu.
Qed.

Lemma origin_failure_handling_witness :
  Demo.demo_unpack "abc" = Raise (UnpackError "truncated header")
  /\ @Proxy.client_handler Demo.wire (Raise ConnectionRefusedError)
       [Demo.exchange Demo.request_2_plus_3 "abc" 1700000000] Demo.empty
     = (Closed, Demo.empty)
  /\ @Proxy.iteration Demo.wire (Demo.exchange Demo.request_2_plus_3 "abc" 1700000000)
       Demo.empty
     = (Ok Continue,
        {| Proxy.cache := Proxy.cache Demo.empty;
           Proxy.sent :=
             [ToOrigin (Demo.demo_pack Demo.request_2_plus_3);
              ToClient (Demo.demo_pack
                          (@from_error Demo.wire 1700000000
                             (CalculatorServerErrorFrom "Internal proxy error"
                                (UnpackError "truncated header"))
                             STATUS_SERVER_ERROR false 0))] |}).
Proof.
  split; [reflexivity|].
  destruct (@origin_failure_handling Demo.wire
              (Demo.exchange Demo.request_2_plus_3 "abc" 1700000000)
              (Demo.fetch "abc" 1700000000)
              [Demo.exchange Demo.request_2_plus_3 "abc" 1700000000]
              Demo.empty (Demo.demo_pack Demo.request_2_plus_3) "abc"%string
              Demo.request_2_plus_3 (UnpackError "truncated header"))
    as (Hrefused & Hloop & _);
    [intros entry Hl; vm_compute in Hl; discriminate
    | intros entry Hl; vm_compute in Hl; discriminate
    | reflexivity |].
  split; [exact Hrefused|].
  destruct Hloop as [_ Hit];
    [reflexivity | discriminate | by vm_compute | discriminate
    | reflexivity | reflexivity | reflexivity |].
  exact Hit.
Defined.

(** ** More about the evaluator *)

Section TraceFacts.
Context {num : Type}.
Import Store.

(** a run of [calculate] that returns is a run on an expression whose
    pure trace exists, and appends that trace *)
Lemma calculate_returns (e : Expr num) (steps : ref) (h h' : store (Expr num))
    (l : list (Expr num)) (v : num) (r : ref) :
  h !! steps = Some l ->
  calculate e steps h = (Ok (v, r), h') ->
  r = steps /\ exists tr, evaluate e = Ok (v, tr) /\ h' !! steps = Some (l ++ tr)
    /\ forall q, (q < length h)%nat -> q <> steps -> h' !! q = h !! q.
Proof.
  intros Hl E.
  pose proof (calculate_refines e steps h (lookup_lt_Some _ _ _ Hl)) as R.
  unfold refines, with_ref in R. destruct (evaluate e) as [[v' tr]|ex].
  - destruct R as (h1 & E1 & P). rewrite E in E1. injection E1 as -> -> <-.
    split; [done|]. exists tr. split; [done|]. split; [by eapply post_read|].
    intros q Hq Hne. destruct P as [_ P]. rewrite P by done. by rewrite decide_False.
  - destruct R as (h1 & tr & E1 & _). rewrite E in E1. discriminate.
Qed.

Lemma length_removelast {A} (l : list A) : length (removelast l) = (length l - 1)%nat.
Proof. induction l as [|a [|b l] IH]; simpl in *; lia. Qed.

Lemma Forall_removelast {A} (P : A -> Prop) (l : list A) :
  Forall P l -> Forall P (removelast l).
Proof.
  induction 1 as [|a l Ha Hl IH]; simpl; [constructor|].
  destruct l; [constructor | by constructor].
Qed.

Lemma trace_length_pred (e : Expr num) : (trace_length e - 1)%nat = operations e.
Proof. unfold trace_length. destruct e; simpl; lia. Qed.

Lemma evaluate_args_length (f : Function num) (orig rest : list (Expr num)) :
  Forall (fun a => forall v tr, evaluate a = Ok (v, tr) -> length tr = trace_length a) rest ->
  forall i res vs tr,
    evaluate_args evaluate f orig i res rest = Ok (vs, tr) ->
    length tr = list_sum (map operations rest).
Proof.
  induction 1 as [|a rest Ha _ IH]; intros i res vs tr E; cbn [evaluate_args] in E.
  { by injection E as <- <-. }
  destruct (evaluate a) as [[v atr]|] eqn:Ea; [|done].
  destruct (evaluate_args _ _ _ _ _ rest) as [[vs' later]|] eqn:Er; [|done].
  injection E as <- <-. rewrite length_app, length_map, length_removelast.
  rewrite (Ha v atr eq_refl), trace_length_pred, (IH _ _ _ _ Er). reflexivity.
Qed.

Lemma evaluate_length (e : Expr num) :
  forall v tr, evaluate e = Ok (v, tr) -> length tr = trace_length e.
Proof.
  induction e as [| | |l op r IHl IHr|op x IHx|f es IH] using Expr_nested_ind;
    intros val tr E; cbn [evaluate] in E.
  1-3: by injection E as <- <-.
  - destruct (evaluate l) as [[lv ltr]|] eqn:El; [|done].
    destruct (evaluate r) as [[rv rtr]|] eqn:Er; [|done].
    destruct (bin_function op lv rv); [|done]. injection E as <- <-.
    rewrite !length_app, !length_map, !length_removelast.
    rewrite (IHl _ _ eq_refl), (IHr _ _ eq_refl), !trace_length_pred.
    unfold trace_length. simpl. lia.
  - destruct (evaluate x) as [[xv xtr]|] eqn:Ex; [|done].
    destruct (un_function op xv); [|done]. injection E as <- <-.
    rewrite !length_app, !length_map, !length_removelast.
    rewrite (IHx _ _ eq_refl), !trace_length_pred.
    unfold trace_length. simpl. lia.
  - destruct (evaluate_args _ _ _ _ _ _) as [[vs atr]|] eqn:Ea; [|done].
    destruct (fn_function f vs); [|done]. injection E as <- <-.
    rewrite length_app, (evaluate_args_length f es es IH _ _ _ _ Ea).
    unfold trace_length. simpl. lia.
Qed.

(** the pure trace of an operation ends with the expression on its
    values and the constant of the result *)
Lemma evaluate_last (e : Expr num) (v : num) (tr : list (Expr num)) :
  evaluate e = Ok (v, tr) ->
  is_constant e = false ->
  exists tr0 s, tr = tr0 ++ [s; Constant v].
Proof.
  intros E Hc. destruct e as [| | |l op r|op x|f es]; try discriminate; cbn [evaluate] in E.
  - destruct (evaluate l) as [[lv ltr]|]; [|done].
    destruct (evaluate r) as [[rv rtr]|]; [|done].
    destruct (bin_function op lv rv); [|done]. injection E as <- <-.
    eexists (_ ++ _), _. by rewrite <- app_assoc.
  - destruct (evaluate x) as [[xv xtr]|]; [|done].
    destruct (un_function op xv); [|done]. injection E as <- <-. by eexists _, _.
  - destruct (evaluate_args _ _ _ _ _ _) as [[vs atr]|]; [|done].
    destruct (fn_function f vs); [|done]. injection E as <- <-. by eexists _, _.
Qed.
End TraceFacts.

(** X1: when [calculate] returns, it returns the list it was given; for
    a constant it has appended nothing, and for every other expression
    it has appended at least two steps, the last of which is the
    constant of the value it returns. *)
Theorem calculate_trace_ends_with_result {num} (e : Expr num) (steps r : Store.ref)
    (h h' : Store.store (Expr num)) (l : list (Expr num)) (v : num) :
  h !! steps = Some l ->
  calculate e steps h = (Ok (v, r), h') ->
  r = steps
  /\ if is_constant e then h' !! steps = Some l
     else exists tr0 s, h' !! steps = Some (l ++ tr0 ++ [s; Constant v]).
Proof.
  intros Hl E. destruct (calculate_returns e steps h h' l v r Hl E) as (-> & tr & Ee & Hs & _).
  split; [done|]. destruct (is_constant e) eqn:Hc.
  - destruct e; try discriminate; cbn [evaluate] in Ee; injection Ee as <- <-;
      by rewrite app_nil_r in Hs.
  - destruct (evaluate_last e v tr Ee Hc) as (tr0 & s & ->). by exists tr0, s.
Qed.

Lemma calculate_trace_ends_with_result_witness :
  (loaded (num := Z)) !! default_steps = Some []
  /\ calculate (BinaryExpr (Constant 2) ADD (Constant 3)) default_steps loaded
     = (Ok (5, default_steps),
        [[BinaryExpr (Number 2) ADD (Number 3); Constant 5]; []; []])
  /\ exists tr0 s,
       [[BinaryExpr (Number 2) ADD (Number 3); Constant 5]; []; []] !! default_steps
       = Some ([] ++ tr0 ++ [s; Constant 5]).
Proof.
  split; [reflexivity|]. split; [by vm_compute|].
  apply (calculate_trace_ends_with_result (BinaryExpr (Constant 2) ADD (Constant 3))
           default_steps default_steps loaded _ [] 5 eq_refl).
  by vm_compute.
Defined.

(** X2: when [calculate] returns, the number of steps it has appended
    is 0 for a constant and otherwise the number of operator and call
    nodes of the expression plus one. *)
Theorem calculate_step_count {num} (e : Expr num) (steps r : Store.ref)
    (h h' : Store.store (Expr num)) (l : list (Expr num)) (v : num) :
  h !! steps = Some l ->
  calculate e steps h = (Ok (v, r), h') ->
  exists tr, h' !! steps = Some (l ++ tr)
    /\ length tr = if is_constant e then 0%nat else S (operations e).
Proof.
  intros Hl E. destruct (calculate_returns e steps h h' l v r Hl E) as (-> & tr & Ee & Hs & _).
  exists tr. split; [done|]. by apply evaluate_length in Ee.
Qed.

Lemma calculate_step_count_witness :
  (loaded (num := Z)) !! default_steps = Some []
  /\ exists tr,
       (calculate (BinaryExpr (BinaryExpr (Constant 1) ADD (Constant 2)) MUL (Constant 4))
          default_steps loaded).2 !! default_steps = Some ([] ++ tr)
       /\ length tr = 3%nat.
Proof.
  split; [reflexivity|].
  apply (calculate_step_count
           (BinaryExpr (BinaryExpr (Constant 1) ADD (Constant 2)) MUL (Constant 4))
           default_steps default_steps loaded
           (calculate (BinaryExpr (BinaryExpr (Constant 1) ADD (Constant 2)) MUL (Constant 4))
              default_steps loaded).2
           [] 12 eq_refl).
  by vm_compute.
Defined.

(** ** Every step has the value of the expression *)

Section StepValues.
Context {num : Type}.

Lemma numbers_yield (vs : list num) : Forall2 yields (map Number vs) vs.
Proof. induction vs; constructor; [by exists [] | done]. Qed.

(** arguments that have values are resolved to them *)
Lemma args_yield (rest : list (Expr num)) (vals : list num) :
  Forall2 yields rest vals ->
  forall f orig i res,
    exists tr, evaluate_args evaluate f orig i res rest = Ok (res ++ vals, tr).
Proof.
  induction 1 as [|a v rest vals [atr Ea] _ IH]; intros f orig i res; cbn [evaluate_args].
  { exists []. by rewrite app_nil_r. }
  rewrite Ea. destruct (IH f orig (S i) (res ++ [v])) as [tr E]. rewrite E.
  eexists. by rewrite <- app_assoc.
Qed.

(** resolved arguments have the values they are resolved to *)
Lemma args_resolved (f : Function num) (orig rest : list (Expr num)) :
  forall i res vs tr,
    evaluate_args evaluate f orig i res rest = Ok (vs, tr) ->
    exists vals, vs = res ++ vals /\ Forall2 yields rest vals.
Proof.
  induction rest as [|a rest IH]; intros i res vs tr E; cbn [evaluate_args] in E.
  { injection E as <- <-. exists []. by rewrite app_nil_r. }
  destruct (evaluate a) as [[v atr]|] eqn:Ea; [|done].
  destruct (evaluate_args _ _ _ _ _ rest) as [[vs' later]|] eqn:Er; [|done].
  injection E as <- <-. destruct (IH _ _ _ _ Er) as (vals & -> & Hv).
  exists (v :: vals). split; [by rewrite <- app_assoc|]. constructor; [by exists atr | done].
Qed.

(** a call on arguments that have the values [vs] has the value of the
    function on [vs] *)
Lemma call_yields (f : Function num) (es : list (Expr num)) (vs : list num) (v : num) :
  Forall2 yields es vs -> fn_function f vs = Ok v -> yields (FunctionCallExpr f es) v.
Proof.
  intros Hv Hf. destruct (args_yield es vs Hv f es 0%nat []) as [tr E].
  unfold yields. cbn [evaluate]. rewrite E. cbn [app]. rewrite Hf. by eexists.
Qed.

Lemma args_steps_yield (f : Function num) (v : num) (rest : list (Expr num)) :
  Forall (fun a => forall va tr, evaluate a = Ok (va, tr) -> Forall (fun s => yields s va) tr)
         rest ->
  forall pre res vs tr,
    evaluate_args evaluate f (pre ++ rest) (length pre) res rest = Ok (vs, tr) ->
    fn_function f vs = Ok v ->
    Forall (fun s => yields s v) tr.
Proof.
  induction 1 as [|a rest Ha _ IH]; intros pre res vs tr E Hf; cbn [evaluate_args] in E.
  { injection E as <- <-. constructor. }
  destruct (evaluate a) as [[va atr]|] eqn:Ea; [|done].
  destruct (evaluate_args _ _ _ _ _ rest) as [[vs' later]|] eqn:Er; [|done].
  injection E as <- <-. apply Forall_app. split.
  - apply Forall_map, Forall_removelast.
    eapply Forall_impl; [exact (Ha va atr eq_refl)|]. intros s Hs. cbn beta.
    destruct (args_resolved _ _ _ _ _ _ _ Er) as (vals & -> & Hvals).
    replace (drop (S (length pre)) (pre ++ a :: rest)) with rest.
    2: { replace (pre ++ a :: rest) with ((pre ++ [a]) ++ rest) by (by rewrite <- app_assoc).
         replace (S (length pre)) with (length (pre ++ [a])) by (rewrite length_app; simpl; lia).
         by rewrite drop_app_length. }
    eapply call_yields; [|exact Hf]. rewrite <- app_assoc.
    apply Forall2_app; [apply numbers_yield|]. by constructor.
  - apply (IH (pre ++ [a]) (res ++ [va]) vs' later); [|done].
    rewrite <- app_assoc, length_app, Nat.add_1_r. exact Er.
Qed.

(** every step of the pure trace has the value of the expression *)
Lemma evaluate_steps_yield (e : Expr num) :
  forall v tr, evaluate e = Ok (v, tr) -> Forall (fun s => yields s v) tr.
Proof.
  induction e as [| | |l op r IHl IHr|op x IHx|f es IH] using Expr_nested_ind;
    intros val tr E; cbn [evaluate] in E.
  1-3: injection E as <- <-; constructor.
  - destruct (evaluate l) as [[lv ltr]|] eqn:El; [|done].
    destruct (evaluate r) as [[rv rtr]|] eqn:Er; [|done].
    destruct (bin_function op lv rv) as [v|] eqn:Ef; [|done]. injection E as <- <-.
    repeat (apply Forall_app; split).
    + apply Forall_map, Forall_removelast.
      eapply Forall_impl; [exact (IHl lv ltr eq_refl)|]. intros s [tr Es]. cbn beta.
      unfold yields. cbn [evaluate]. rewrite Es, Er, Ef. by eexists.
    + apply Forall_map, Forall_removelast.
      eapply Forall_impl; [exact (IHr rv rtr eq_refl)|]. intros s [tr Es]. cbn beta.
      unfold yields. cbn [evaluate]. rewrite Es, Ef. by eexists.
    + repeat constructor; unfold yields; cbn [evaluate]; [rewrite Ef|]; by eexists.
  - destruct (evaluate x) as [[xv xtr]|] eqn:Ex; [|done].
    destruct (un_function op xv) as [v|] eqn:Ef; [|done]. injection E as <- <-.
    apply Forall_app; split.
    + apply Forall_map, Forall_removelast.
      eapply Forall_impl; [exact (IHx xv xtr eq_refl)|]. intros s [tr Es]. cbn beta.
      unfold yields. cbn [evaluate]. rewrite Es, Ef. by eexists.
    + repeat constructor; unfold yields; cbn [evaluate]; [rewrite Ef|]; by eexists.
  - destruct (evaluate_args _ _ _ _ _ _) as [[vs atr]|] eqn:Ea; [|done].
    destruct (fn_function f vs) as [v|] eqn:Ef; [|done]. injection E as <- <-.
    apply Forall_app; split.
    + exact (args_steps_yield f v es IH [] [] vs atr Ea Ef).
    + repeat constructor; [|by exists []].
      eapply call_yields; [apply numbers_yield | done].
Qed.
End StepValues.

(** X3: every step that [calculate] appends is an expression with the
    value of the whole: [calculate] on the step, on any list of any
    store, returns the value that it returned for the expression.  The
    evaluation rules of the registry are functions of their arguments
    here; a rule that draws a random number is outside the model. *)
Theorem calculate_steps_keep_value {num} (e : Expr num) (steps r : Store.ref)
    (h h' : Store.store (Expr num)) (l : list (Expr num)) (v : num) :
  h !! steps = Some l ->
  calculate e steps h = (Ok (v, r), h') ->
  exists tr, h' !! steps = Some (l ++ tr)
    /\ forall s, s ∈ tr ->
       forall (steps0 : Store.ref) (h0 : Store.store (Expr num)),
         (steps0 < length h0)%nat ->
         exists h1, calculate s steps0 h0 = (Ok (v, steps0), h1).
Proof.
  intros Hl E. destruct (calculate_returns e steps h h' l v r Hl E) as (-> & tr & Ee & Hs & _).
  exists tr. split; [done|]. intros s Hin steps0 h0 Hlt.
  pose proof (evaluate_steps_yield e v tr Ee) as Hall.
  rewrite Forall_forall in Hall. destruct (Hall s Hin) as [trs Es].
  pose proof (calculate_refines s steps0 h0 Hlt) as R. unfold refines, with_ref in R.
  rewrite Es in R. destruct R as (h1 & E1 & _). by exists h1.
Qed.

Lemma calculate_steps_keep_value_witness :
  (loaded (num := Z)) !! default_steps = Some []
  /\ exists h1,
       calculate (BinaryExpr (Number 3) MUL (Number 4)) default_steps loaded
       = (Ok (12, default_steps), h1).
Proof.
  split; [reflexivity|].
  destruct (calculate_steps_keep_value
              (BinaryExpr (BinaryExpr (Constant 1) ADD (Constant 2)) MUL (Constant 4))
              default_steps default_steps loaded
              (calculate (BinaryExpr (BinaryExpr (Constant 1) ADD (Constant 2)) MUL (Constant 4))
                 default_steps loaded).2
              [] 12 eq_refl) as (tr & Hs & Hv); [by vm_compute|].
  apply Hv; [|unfold default_steps, loaded; simpl; lia].
  assert (Htr : tr = [BinaryExpr (BinaryExpr (Number 1) ADD (Number 2)) MUL (Constant 4);
                      BinaryExpr (Number 3) MUL (Number 4); Constant 12]).
  { vm_compute in Hs. by injection Hs as <-. }
  rewrite Htr. apply list_elem_of_In. simpl. auto.
Defined.

(** ** More about the server *)

Section ServerRuns.
Context `{Wire} {num : Type} `{Payload num}.
Import Store.

(** What [process_request] answers, and that it leaves every list of
    the store as it was. *)
Lemma process_request_run (t : Z) (request : CalculatorHeader) (h : store (Expr num)) :
  exists h',
    Server.process_request t request h
    = (Ok (if is_request request then
             match data_to_expression request with
             | Raise ex =>
                 from_error t ex STATUS_CLIENT_ERROR Server.CACHE_POLICY Server.CACHE_CONTROL
             | Ok e =>
                 match evaluate e with
                 | Ok (v, tr) =>
                     from_result t v
                       (if show_steps request then map (stringify show_num true) tr else [])
                       Server.CACHE_POLICY Server.CACHE_CONTROL
                 | Raise ex =>
                     from_error t ex STATUS_CLIENT_ERROR Server.CACHE_POLICY Server.CACHE_CONTROL
                 end
             end
           else
             from_error t (TypeError "Received a response instead of a request")
               STATUS_CLIENT_ERROR Server.CACHE_POLICY Server.CACHE_CONTROL),
       h')
    /\ forall r, (r < length h)%nat -> h' !! r = h !! r.
Proof.
  unfold Server.process_request. rewrite bind_new_list. unfold bind at 1, attempt.
  destruct (is_request request).
  2: { exists (h ++ [[]]). split; [reflexivity|]. intros r Hr. by apply lookup_app_l. }
  rewrite bind_lift. destruct (data_to_expression request) as [e|ex].
  2: { exists (h ++ [[]]). split; [reflexivity|]. intros r Hr. by apply lookup_app_l. }
  pose proof (calculate_refines e (length h) (h ++ [[]])) as R. unfold refines, with_ref in R.
  assert (Hframe : forall h' tr, post (h ++ [[]]) h' (length h) tr ->
            forall r, (r < length h)%nat -> h' !! r = h !! r).
  { intros h' tr [_ P] r Hr. rewrite P by len. rewrite decide_False by lia.
    by apply lookup_app_l. }
  destruct (evaluate e) as [[v tr]|ex].
  - destruct R as (h' & E & P); [len|]. rewrite E. cbv beta iota.
    rewrite bind_read, (post_read _ _ _ _ _ P (lookup_fresh h [] [])).
    exists h'. split; [reflexivity|]. by apply (Hframe h' tr).
  - destruct R as (h' & tr & E & P); [len|]. rewrite E. cbv beta iota.
    exists h'. split; [reflexivity|]. by apply (Hframe h' tr).
Qed.

(** a run of [calculate] that raises is a run on an expression whose
    pure evaluation raises the same exception *)
Lemma calculate_raises (e : Expr num) (steps : ref) (h h' : store (Expr num)) (ex : exn) :
  (steps < length h)%nat ->
  calculate e steps h = (Raise ex, h') ->
  evaluate e = Raise ex.
Proof.
  intros Hs E. pose proof (calculate_refines e steps h Hs) as R.
  unfold refines, with_ref in R. destruct (evaluate e) as [[v tr]|ex'].
  - destruct R as (h1 & E1 & _). rewrite E in E1. discriminate.
  - destruct R as (h1 & tr & E1 & _). rewrite E in E1. by injection E1 as ->.
Qed.
End ServerRuns.

(** X4: what [process_request] answers does not depend on the store it
    runs on, that is on the requests answered before, and it leaves
    every list of the store, the default list of [calculate] among
    them, as it was.  The evaluation rules of the registry are
    functions of their arguments here. *)
Theorem process_request_ignores_the_store `{Wire} {num : Type} `{Payload num}
    (t : Z) (request : CalculatorHeader) (h1 h2 : Store.store (Expr num)) :
  (Server.process_request t request h1).1 = (Server.process_request t request h2).1
  /\ forall r, (r < length h1)%nat ->
       (Server.process_request t request h1).2 !! r = h1 !! r.
Proof.
  destruct (process_request_run t request h1) as (h1' & E1 & F1).
  destruct (process_request_run t request h2) as (h2' & E2 & _).
  rewrite E1, E2. by split.
Qed.

(** X5: for a request whose payload is the expression [e], if
    [calculate] on an empty list returns the value [v] and leaves the
    steps [tr] there, then [process_request], on any store, answers with
    the result [v] and, when the request asks for steps, the steps [tr]
    rendered with brackets, and with no steps when it does not. *)
Theorem process_request_answers_evaluation `{Wire} {num : Type} `{Payload num}
    (t : Z) (request : CalculatorHeader) (e : Expr num) (v : num) (tr : list (Expr num))
    (s0 r0 : Store.ref) (h0 h0' h : Store.store (Expr num)) :
  is_request request = true ->
  data_to_expression request = Ok e ->
  h0 !! s0 = Some [] ->
  calculate e s0 h0 = (Ok (v, r0), h0') ->
  h0' !! s0 = Some tr ->
  (Server.process_request t request h).1
  = Ok (from_result t v
          (if show_steps request then map (stringify show_num true) tr else [])
          true (2 ^ 16 - 1)).
Proof.
  intros Hq Hd Hl E Htr.
  destruct (calculate_returns e s0 h0 h0' [] v r0 Hl E) as (_ & tr' & Ee & Hs & _).
  rewrite Htr in Hs. injection Hs as ->.
  destruct (process_request_run t request h) as (h' & E' & _).
  rewrite E', Hq, Hd, Ee. reflexivity.
Qed.

Lemma process_request_answers_evaluation_witness :
  @data_to_expression Z Demo.payload Demo.request_2_plus_3
  = Ok (BinaryExpr (Constant 2) ADD (Constant 3))
  /\ calculate (BinaryExpr (Constant 2) ADD (Constant 3)) default_steps loaded
     = (Ok (5, default_steps), [[BinaryExpr (Number 2) ADD (Number 3); Constant 5]; []; []])
  /\ (@Server.process_request Z Demo.wire Demo.payload 1700000000 Demo.request_2_plus_3
        [[Constant 7]; []]).1
     = Ok (@from_result Z Demo.payload 1700000000 5 ["2 + 3"; "5"]%string true (2 ^ 16 - 1)).
Proof.
  split; [by vm_compute|]. split; [by vm_compute|].
  apply (@process_request_answers_evaluation Demo.wire Z Demo.payload 1700000000
           Demo.request_2_plus_3 (BinaryExpr (Constant 2) ADD (Constant 3)) 5
           [BinaryExpr (Number 2) ADD (Number 3); Constant 5]
           default_steps default_steps loaded
           [[BinaryExpr (Number 2) ADD (Number 3); Constant 5]; []; []]
           [[Constant 7]; []]);
    [reflexivity | by vm_compute | reflexivity | by vm_compute | reflexivity].
Defined.

(** X6: a request whose payload is not an expression, and a request
    whose expression makes [calculate] raise, are answered with an error
    response of status [CLIENT_ERROR] that carries the exception, built
    cacheable like every response of the server. *)
Theorem process_request_reports_failures `{Wire} {num : Type} `{Payload num}
    (t : Z) (request : CalculatorHeader) (ex : exn) (h : Store.store (Expr num)) :
  is_request request = true ->
  (data_to_expression request = Raise ex
   \/ exists e s0 h0 h0',
        data_to_expression request = Ok e /\ (s0 < length h0)%nat
        /\ calculate e s0 h0 = (Raise ex, h0')) ->
  (Server.process_request t request h).1
  = Ok (from_error t ex STATUS_CLIENT_ERROR true (2 ^ 16 - 1)).
Proof.
  intros Hq Hcase. destruct (process_request_run t request h) as (h' & E' & _).
  rewrite E', Hq. destruct Hcase as [->|(e & s0 & h0 & h0' & -> & Hs & E)]; [done|].
  by rewrite (calculate_raises e s0 h0 h0' ex Hs E).
Qed.
Lemma process_request_reports_failures_witness :
  @data_to_expression Z DemoMod.payload DemoMod.request_1_mod_0
  = Ok (BinaryExpr (Constant 1) MOD (Constant 0))
  /\ (calculate (BinaryExpr (Constant 1) MOD (Constant 0)) default_steps loaded).1
     = Raise (RuleError "integer modulo by zero")
  /\ (@Server.process_request Z Demo.wire DemoMod.payload 1700000000
        DemoMod.request_1_mod_0 loaded).1
     = Ok (@from_error Demo.wire 1700000000 (RuleError "integer modulo by zero")
             STATUS_CLIENT_ERROR true (2 ^ 16 - 1))
  /\ (@Server.process_request Z Demo.wire DemoMod.payload 1700000000
        DemoMod.request_garbled loaded).1
     = Ok (@from_error Demo.wire 1700000000 (UnpackError "not an expression")
             STATUS_CLIENT_ERROR true (2 ^ 16 - 1)).
Proof.
  split; [by vm_compute|]. split; [by vm_compute|]. split.
  - apply (@process_request_reports_failures Demo.wire Z DemoMod.payload 1700000000
             DemoMod.request_1_mod_0 (RuleError "integer modulo by zero") loaded);
      [reflexivity|].
    right. exists (BinaryExpr (Constant 1) MOD (Constant 0)), default_steps, loaded,
      (calculate (BinaryExpr (Constant 1) MOD (Constant 0)) default_steps loaded).2.
    split; [by vm_compute|]. split; [unfold default_steps, loaded; simpl; lia | by vm_compute].
  - apply (@process_request_reports_failures Demo.wire Z DemoMod.payload 1700000000
             DemoMod.request_garbled (UnpackError "not an expression") loaded);
      [reflexivity|].
    left. by vm_compute.
Defined.

(** X7: the server's handler reads nothing after it has left its loop:
    on a longer list of reads it does what it does on the shorter one
    and, only if it is still waiting there, goes on with the rest from
    the store it has reached, sending the later responses after the
    earlier ones. *)
Theorem server_handler_composes `{Wire} {num : Type} `{Payload num}
    (vs ws : list Server.env) (h : Store.store (Expr num)) :
  exists out en h',
    Server.client_handler vs h = (Ok (out, en), h')
    /\ Server.client_handler (vs ++ ws) h
       = match en with
         | Waiting =>
             (let! (out', en') := Server.client_handler ws in ret (out ++ out', en')) h'
         | _ => (Ok (out, en), h')
         end.
Proof.
  revert h. induction vs as [|v vs IH]; intros h; cbn [Server.client_handler app].
  { exists [], Waiting, h. split; [reflexivity|].
    destruct (client_handler_total ws h) as (out & en & h' & E & _).
    unfold bind. by rewrite E. }
  destruct (iteration_total v h) as (out & c & h1 & E & _ & Hc).
  rewrite !(bind_ok _ _ _ _ _ E). cbv beta iota.
  destruct Hc as [->|[-> _]].
  - destruct (IH h1) as (out' & en & h2 & E1 & E2).
    rewrite (bind_ok _ _ _ _ _ E1). cbv beta iota.
    destruct en.
    + rewrite (bind_ok _ _ _ _ _ E2). eexists _, _, _. split; reflexivity.
    + destruct (client_handler_total ws h2) as (out2 & en2 & h3 & E3 & _).
      unfold bind at 1, ret in E2. rewrite E3 in E2. rewrite (bind_ok _ _ _ _ _ E2).
      eexists _, _, _. split; [reflexivity|]. unfold bind, ret. rewrite E3.
      by rewrite app_assoc.
    + rewrite (bind_ok _ _ _ _ _ E2). eexists _, _, _. split; reflexivity.
  - eexists _, _, _. split; reflexivity.
Qed.

(** X8: a response whose payload is [terminate] makes the server's
    handler leave its loop at once: it sends nothing, no
    acknowledgement either, leaves the store as it is, and reads nothing
    more. *)
Theorem server_terminate_is_silent `{Wire} {num : Type} `{Payload num}
    (v : Server.env) (vs : list Server.env) (d : bytes) (m : CalculatorHeader)
    (h : Store.store (Expr num)) :
  Server.recv v = Ok d ->
  d <> ""%string ->
  unpack d = Ok m ->
  is_request m = false ->
  data m = "terminate"%string ->
  Server.iteration v h = (Ok ([], Break), h)
  /\ Server.client_handler (v :: vs) h = (Ok ([], Closed), h).
Proof.
  intros Er Hne Eu Hq Hd.
  assert (Ei : Server.iteration v h = (Ok ([], Break), h)).
  { unfold Server.iteration. apply String.eqb_neq in Hne. by rewrite Er, Hne, Eu, Hq, Hd. }
  split; [exact Ei|]. cbn [Server.client_handler]. by rewrite (bind_ok _ _ _ _ _ Ei).
Qed.

Lemma server_terminate_is_silent_witness :
  Demo.demo_unpack (Demo.demo_pack (terminate_message 1700000000))
  = Ok (terminate_message 1700000000)
  /\ @Server.client_handler Z Demo.wire Demo.payload
       [Demo.reads (Demo.demo_pack (terminate_message 1700000000)) 1700000001;
        Demo.reads (Demo.demo_pack Demo.request_2_plus_3) 1700000002]
       loaded
     = (Ok ([], Closed), loaded).
Proof.
  split; [by vm_compute|].
  apply (@server_terminate_is_silent Demo.wire Z Demo.payload
           (Demo.reads (Demo.demo_pack (terminate_message 1700000000)) 1700000001)
           [Demo.reads (Demo.demo_pack Demo.request_2_plus_3) 1700000002]
           (Demo.demo_pack (terminate_message 1700000000))
           (terminate_message 1700000000) loaded);
    [reflexivity | discriminate | by vm_compute | reflexivity | reflexivity].
Defined.

(** X9: every read that is not empty and is not the termination message
    is answered, when the [sendall] works, by exactly one response, and
    the handler stays in its loop; this holds for bytes that do not
    decode, for responses sent by mistake and for requests alike, a
    request with the payload [terminate] among them. *)
Theorem server_answers_each_read_once `{Wire} {num : Type} `{Payload num}
    (v : Server.env) (d : bytes) (h : Store.store (Expr num)) :
  Server.recv v = Ok d ->
  d <> ""%string ->
  Server.sendall v = Ok tt ->
  (forall m, unpack d = Ok m -> is_request m = true \/ data m <> "terminate"%string) ->
  exists m h',
    Server.iteration v h = (Ok ([ToClient (pack m)], Continue), h')
    /\ is_request m = false.
Proof.
  intros Er Hne Es Hnt. unfold Server.iteration. apply String.eqb_neq in Hne.
  rewrite Er, Hne. destruct (unpack d) as [m|e] eqn:Eu.
  - assert (Ht : negb (is_request m) && String.eqb (data m) "terminate" = false).
    { destruct (Hnt m eq_refl) as [->|Hd]; [done|].
      apply String.eqb_neq in Hd. rewrite Hd. by destruct (is_request m). }
    rewrite Ht.
    destruct (process_request_response (Server.now v) m h) as (a & h' & E & Hq & _).
    rewrite (bind_ok _ _ _ _ _ E). unfold ret, Server.reply. rewrite Es. by exists a, h'.
  - unfold ret, Server.reply. rewrite Es. by eexists _, h.
Qed.

Lemma server_answers_each_read_once_witness :
  (forall m, Demo.demo_unpack (Demo.demo_pack Demo.request_2_plus_3) = Ok m ->
             is_request m = true \/ data m <> "terminate"%string)
  /\ exists m h',
       @Server.iteration Z Demo.wire Demo.payload
         (Demo.reads (Demo.demo_pack Demo.request_2_plus_3) 1700000000) loaded
       = (Ok ([ToClient (Demo.demo_pack m)], Continue), h')
       /\ is_request m = false.
Proof.
  assert (Hm : forall m, Demo.demo_unpack (Demo.demo_pack Demo.request_2_plus_3) = Ok m ->
                         is_request m = true \/ data m <> "terminate"%string).
  { intros m Hm. vm_compute in Hm. injection Hm as <-. by left. }
  split; [exact Hm|].
  apply (@server_answers_each_read_once Demo.wire Z Demo.payload
           (Demo.reads (Demo.demo_pack Demo.request_2_plus_3) 1700000000)
           (Demo.demo_pack Demo.request_2_plus_3) loaded);
    [reflexivity | discriminate | reflexivity | exact Hm].
Defined.

(** X10: when [recv] raises, or when the [sendall] of a response
    raises, the server's handler builds an error response of status
    [SERVER_ERROR] from the exception; if that can be sent it is the
    only thing sent and the loop goes on, and if not nothing is sent and
    the loop is left. *)
Theorem server_socket_failure `{Wire} {num : Type} `{Payload num}
    (v : Server.env) (d : bytes) (e : exn) (h : Store.store (Expr num)) :
  (Server.recv v = Raise e
   \/ (Server.recv v = Ok d /\ d <> ""%string /\ Server.sendall v = Raise e
       /\ forall m, unpack d = Ok m -> is_request m = true \/ data m <> "terminate"%string)) ->
  exists h',
    Server.iteration v h
    = (Ok (match Server.sendall_error v with
           | Ok _ =>
               ([ToClient (pack (from_error (Server.now v) e STATUS_SERVER_ERROR
                                   true (2 ^ 16 - 1)))],
                Continue)
           | Raise _ => ([], Break)
           end),
       h').
Proof.
  intros [Er|(Er & Hne & Es & Hnt)]; unfold Server.iteration; rewrite Er.
  { by exists h. }
  apply String.eqb_neq in Hne. rewrite Hne. destruct (unpack d) as [m|e'] eqn:Eu.
  - assert (Ht : negb (is_request m) && String.eqb (data m) "terminate" = false).
    { destruct (Hnt m eq_refl) as [->|Hd]; [done|].
      apply String.eqb_neq in Hd. rewrite Hd. by destruct (is_request m). }
    rewrite Ht.
    destruct (process_request_response (Server.now v) m h) as (a & h' & E & _).
    rewrite (bind_ok _ _ _ _ _ E). unfold ret, Server.reply. rewrite Es. by exists h'.
  - unfold ret, Server.reply. rewrite Es. by exists h.
Qed.

Lemma server_socket_failure_witness :
  (@Server.iteration Z Demo.wire Demo.payload
     {| Server.recv := Raise (SocketError "connection reset"); Server.now := 1700000000;
        Server.sendall := Ok tt; Server.sendall_error := Raise (SocketError "broken pipe") |}
     loaded).1
  = Ok ([], Break).
Proof.
  destruct (@server_socket_failure Demo.wire Z Demo.payload
              {| Server.recv := Raise (SocketError "connection reset");
                 Server.now := 1700000000;
                 Server.sendall := Ok tt;
                 Server.sendall_error := Raise (SocketError "broken pipe") |}
              ""%string (SocketError "connection reset") loaded) as [h' E];
    [by left|].
  rewrite E. reflexivity.
Defined.

(** ** More about the proxy *)

(** X11: an entry that is fresh for a request at some time was fresh
    for it at every earlier time; so an entry that has become stale for
    a request stays stale for it. *)
Theorem freshness_only_decreases (request entry : CalculatorHeader) (t1 t2 : Z) :
  t1 <= t2 ->
  Proxy.fresh request entry t2 = true ->
  Proxy.fresh request entry t1 = true.
Proof.
  intros Hle. unfold Proxy.fresh, Proxy.server_time_remaining, Proxy.client_time_remaining.
  rewrite !andb_true_iff. intros [Hs Hc]. split.
  - destruct (Proxy.or_inf (cache_control entry)); simpl in *; [|done].
    apply Z.ltb_lt in Hs. apply Z.ltb_lt. lia.
  - destruct (Proxy.or_inf (cache_control request)); simpl in *; [|done].
    apply Z.ltb_lt in Hc. apply Z.ltb_lt. lia.
Qed.

Lemma freshness_only_decreases_witness :
  Proxy.fresh Demo.request_2_plus_3 (Demo.answer 1700000000 true 100) 1700000099 = true
  /\ Proxy.fresh Demo.request_2_plus_3 (Demo.answer 1700000000 true 100) 1700000050 = true.
Proof.
  split; [reflexivity|].
  apply (freshness_only_decreases Demo.request_2_plus_3 (Demo.answer 1700000000 true 100)
           1700000050 1700000099); [lia | reflexivity].
Defined.

(** X12: an entry is fresh for a request exactly when its age, the
    proxy's time less its time stamp, is strictly less than the cache
    control of the entry and than that of the request, where the value
    65535 on either side sets no bound.  An entry whose age equals one
    of the two is stale. *)
Theorem fresh_means_younger_than_both (request entry : CalculatorHeader) (t : Z) :
  Proxy.fresh request entry t = true
  <-> (cache_control entry = 65535 \/ t - unix_time_stamp entry < cache_control entry)
      /\ (cache_control request = 65535 \/ t - unix_time_stamp entry < cache_control request).
Proof.
  assert (Hp : forall cc age, Proxy.positive (Proxy.minus (Proxy.or_inf cc) age) = true
                              <-> cc = 65535 \/ age < cc).
  { intros cc age. unfold Proxy.or_inf. change Proxy.INDEFINITE with 65535.
    destruct (Z.eqb_spec cc 65535) as [->|Hne]; simpl.
    - split; auto.
    - rewrite Z.ltb_lt. split; [intros; right; lia | intros [?|?]; [done | lia]]. }
  unfold Proxy.fresh, Proxy.server_time_remaining, Proxy.client_time_remaining.
  by rewrite andb_true_iff, !Hp.
Qed.

Lemma fresh_means_younger_than_both_witness :
  Proxy.fresh Demo.reload_request (Demo.answer 1700000000 true 100) 1700000000 = false
  /\ Proxy.fresh Demo.request_2_plus_3 (Demo.answer 1700000000 true 100) 1700000100 = false
  /\ Proxy.fresh Demo.request_2_plus_3 (Demo.answer 1700000000 true 100) 1700000099 = true.
Proof.
  split; [reflexivity|]. split; [reflexivity|].
  apply (fresh_means_younger_than_both Demo.request_2_plus_3
           (Demo.answer 1700000000 true 100) 1700000099).
  split; [right; simpl; lia | left; reflexivity].
Defined.

Section ProxyRuns.
Context `{Wire}.
Import Proxy.

(** what one iteration can send: nothing, one message to the client,
    one to the origin, or one to the origin and then one to the client *)
Lemma iteration_sent (v : env) (s : state) :
  exists out, sent (iteration v s).2 = sent s ++ out
    /\ (out = [] \/ (exists b, out = [ToClient b]) \/ (exists b, out = [ToOrigin b])
        \/ exists b c, out = [ToOrigin b; ToClient c]).
Proof.
  unfold iteration, handle.
  unfold bind, lift, attempt, send, ret, get_cache, store_response.
  assert (H0 : sent s = sent s ++ []) by (by rewrite app_nil_r).
  destruct (recv_client v) as [d|]; [|exists []; auto].
  destruct (String.eqb d ""); [exists []; auto|].
  destruct (unpack d) as [request|].
  2: { destruct (sendall_error v); simpl; eauto 8. }
  destruct (String.eqb (data request) "EXIT").
  { destruct (sendall_origin v); simpl; [|destruct (sendall_error v); simpl; eauto 8].
    destruct (recv_origin v); simpl; [|destruct (sendall_error v); simpl;
      rewrite <- ?app_assoc; simpl; eauto 8].
    destruct (sendall_client v); simpl; [rewrite <- ?app_assoc; simpl; eauto 8|].
    destruct (sendall_error v); simpl; rewrite <- ?app_assoc; simpl; eauto 8. }
  destruct (match cache s !! _ with Some _ => _ | None => _ end).
  { destruct (sendall_client v); simpl; [eauto 8|]. destruct (sendall_error v); simpl; eauto 8. }
  destruct (sendall_origin v); simpl; [|destruct (sendall_error v); simpl; eauto 8].
  destruct (recv_origin v) as [rd|]; simpl;
    [|destruct (sendall_error v); simpl; rewrite <- ?app_assoc; simpl; eauto 8].
  destruct (unpack rd) as [response|]; simpl;
    [|destruct (sendall_error v); simpl; rewrite <- ?app_assoc; simpl; eauto 8].
  destruct (cache_result request && cache_result response); simpl;
    destruct (sendall_client v); simpl; rewrite <- ?app_assoc; simpl; eauto 8;
    destruct (sendall_error v); simpl; rewrite <- ?app_assoc; simpl; eauto 8.
Qed.

Lemma iteration_grows (v : env) (s : state) :
  dom (cache s) ⊆ dom (cache (iteration v s).2)
  /\ sent s `prefix_of` sent (iteration v s).2.
Proof.
  split.
  - destruct (iteration_cache v s) as [->|(d & q & rd & p & _ & _ & _ & _ & _ & _ & ->)];
      [done|]. rewrite dom_insert_L. set_solver.
  - destruct (iteration_sent v s) as (out & -> & _). by exists out.
Qed.

Lemma loop_grows (vs : list env) (s : state) :
  dom (cache s) ⊆ dom (cache (loop vs s).2)
  /\ sent s `prefix_of` sent (loop vs s).2.
Proof.
  revert s. induction vs as [|v vs IH]; intros s; cbn [loop]; [by split|].
  destruct (iteration_grows v s) as [Hc Hs].
  destruct (iteration v s) as [[[]|e] s1]; simpl in *; try done.
  destruct (IH s1) as [Hc' Hs']. split; by etrans.
Qed.
End ProxyRuns.

(** X13: the proxy's handler never removes an entry from the cache, a
    stale one included, and never takes back what it has sent: after
    any run, every key of the cache is still a key, and what was sent
    before is the beginning of what has been sent. *)
Theorem proxy_state_only_grows `{Wire} (connected : res unit) (vs : list Proxy.env)
    (s : Proxy.state) :
  dom (Proxy.cache s) ⊆ dom (Proxy.cache (Proxy.client_handler connected vs s).2)
  /\ Proxy.sent s `prefix_of` Proxy.sent (Proxy.client_handler connected vs s).2.
Proof.
  unfold Proxy.client_handler. destruct connected as [[]|e]; [apply loop_grows|].
  by destruct e.
Qed.

(** X14: in one iteration of its loop the proxy's handler sends nothing,
    or one message to the client, or one message to the origin, or one
    message to the origin followed by one to the client; it never sends
    the client two messages for one read. *)
Theorem proxy_iteration_sends_little `{Wire} (v : Proxy.env) (s : Proxy.state) :
  exists out, Proxy.sent (Proxy.iteration v s).2 = Proxy.sent s ++ out
    /\ (out = [] \/ (exists b, out = [ToClient b]) \/ (exists b, out = [ToOrigin b])
        \/ exists b c, out = [ToOrigin b; ToClient c]).
Proof. apply iteration_sent. Qed.

(** X15: a response that the proxy's handler has stored answers the
    next read of the same bytes: if both messages of a forwarded
    exchange say [cache_result], then a later read of the same request,
    at a time at which the stored response is fresh for it, is answered
    with the stored response, packed again, and the origin is not
    contacted and the cache not changed. *)
Theorem stored_response_answers_next_request `{Wire} (v1 v2 : Proxy.env) (s : Proxy.state)
    (d rd : bytes) (request response : CalculatorHeader) :
  Proxy.recv_client v1 = Ok d -> Proxy.recv_client v2 = Ok d -> d <> ""%string ->
  unpack d = Ok request -> data request <> "EXIT"%string ->
  (forall entry, Proxy.cache s !! (data request, show_steps request) = Some entry ->
                 Proxy.fresh request entry (Proxy.now v1) = false) ->
  Proxy.sendall_origin v1 = Ok tt ->
  Proxy.recv_origin v1 = Ok rd ->
  unpack rd = Ok response ->
  cache_result request = true ->
  cache_result response = true ->
  Proxy.fresh request response (Proxy.now v2) = true ->
  Proxy.sendall_client v2 = Ok tt ->
  Proxy.iteration v2 (Proxy.iteration v1 s).2
  = (Ok Continue,
     {| Proxy.cache := Proxy.cache (Proxy.iteration v1 s).2;
        Proxy.sent := Proxy.sent (Proxy.iteration v1 s).2 ++ [ToClient (pack response)] |}).
Proof.
  intros Er1 Er2 Hne Eu Hx Hmiss Hs Hr Hu Hq Hp Hf Hc.
  assert (Hl : Proxy.cache (Proxy.iteration v1 s).2 !! (data request, show_steps request)
               = Some response).
  { rewrite (handler_store_condition v1 s d rd request response) by done.
    rewrite Hq, Hp. apply lookup_insert_eq. }
  rewrite (iteration_unfold v2 _ d Er2 Hne), (handle_hit v2 _ d request response Eu Hx Hl Hf).
  unfold bind, Proxy.send, ret. by rewrite Hc.
Qed.

Lemma stored_response_answers_next_request_witness :
  Demo.demo_unpack (Demo.demo_pack Demo.request_2_plus_3) = Ok Demo.request_2_plus_3
  /\ Demo.demo_unpack (Demo.demo_pack (Demo.answer 1700000000 true 65535))
     = Ok (Demo.answer 1700000000 true 65535)
  /\ Proxy.sent
       (@Proxy.iteration Demo.wire (Demo.exchange Demo.request_2_plus_3 "" 1700000500)
          (@Proxy.iteration Demo.wire
             (Demo.exchange Demo.request_2_plus_3
                (Demo.demo_pack (Demo.answer 1700000000 true 65535)) 1700000000)
             Demo.empty).2).2
     = [ToOrigin (Demo.demo_pack Demo.request_2_plus_3);
        ToClient (Demo.demo_pack (Demo.answer 1700000000 true 65535));
        ToClient (Demo.demo_pack (Demo.answer 1700000000 true 65535))].
Proof.
  split; [by vm_compute|]. split; [by vm_compute|].
  rewrite (@stored_response_answers_next_request Demo.wire
             (Demo.exchange Demo.request_2_plus_3
                (Demo.demo_pack (Demo.answer 1700000000 true 65535)) 1700000000)
             (Demo.exchange Demo.request_2_plus_3 "" 1700000500)
             Demo.empty (Demo.demo_pack Demo.request_2_plus_3)
             (Demo.demo_pack (Demo.answer 1700000000 true 65535))
             Demo.request_2_plus_3 (Demo.answer 1700000000 true 65535));
    [by vm_compute | reflexivity | reflexivity | discriminate | by vm_compute | discriminate
    | intros entry Hl; vm_compute in Hl; discriminate
    | reflexivity | reflexivity | by vm_compute | reflexivity | reflexivity
    | reflexivity | reflexivity].
Defined.

(** X16: the message that the client sends on [exit] is recognised by
    the proxy: the handler forwards the client's bytes to the origin as
    they are, relays what the origin answers to the client as it is,
    leaves its loop and reads no more; the cache is not looked at and
    not changed. *)
Theorem proxy_relays_exit `{Wire} (v : Proxy.env) (vs : list Proxy.env) (s : Proxy.state)
    (t : Z) (rd : bytes) :
  Proxy.recv_client v = Ok (pack (Client.termination_request t)) ->
  pack (Client.termination_request t) <> ""%string ->
  unpack (pack (Client.termination_request t)) = Ok (Client.termination_request t) ->
  Proxy.sendall_origin v = Ok tt ->
  Proxy.recv_origin v = Ok rd ->
  Proxy.sendall_client v = Ok tt ->
  Proxy.client_handler (Ok tt) (v :: vs) s
  = (Closed,
     {| Proxy.cache := Proxy.cache s;
        Proxy.sent := Proxy.sent s
                      ++ [ToOrigin (pack (Client.termination_request t)); ToClient rd] |}).
Proof.
  intros Er Hne Eu Hs Hr Hc. cbn [Proxy.client_handler Proxy.loop].
  rewrite (iteration_unfold v s _ Er Hne). unfold Proxy.handle.
  rewrite bind_lift, Eu. cbn [Client.termination_request from_response data String.eqb
    Ascii.eqb Bool.eqb].
  unfold bind, lift, Proxy.send, ret. rewrite Hs, Hr, Hc. simpl. by rewrite <- app_assoc.
Qed.

Lemma proxy_relays_exit_witness :
  Demo.demo_unpack (Demo.demo_pack (Client.termination_request 1700000000))
  = Ok (Client.termination_request 1700000000)
  /\ @Proxy.client_handler Demo.wire (Ok tt)
       [Demo.exchange (Client.termination_request 1700000000) "bye" 1700000001;
        Demo.exchange Demo.request_2_plus_3 "" 1700000002]
       Demo.empty
     = (Closed,
        {| Proxy.cache := ∅;
           Proxy.sent := [ToOrigin (Demo.demo_pack (Client.termination_request 1700000000));
                          ToClient "bye"] |}).
Proof.
  split; [by vm_compute|].
  apply (@proxy_relays_exit Demo.wire
           (Demo.exchange (Client.termination_request 1700000000) "bye" 1700000001)
           [Demo.exchange Demo.request_2_plus_3 "" 1700000002]
           Demo.empty 1700000000 "bye"%string);
    [reflexivity | discriminate | by vm_compute | reflexivity | reflexivity | reflexivity].
Defined.

(** X17: bytes from the client that do not decode are answered by the
    proxy with an error response of status [SERVER_ERROR], built not
    cacheable and with cache control 0, that carries the exception; the
    origin is not contacted, the cache is not changed, and the handler
    stays in its loop. *)
Theorem proxy_undecodable_request `{Wire} (v : Proxy.env) (s : Proxy.state)
    (d : bytes) (e : exn) :
  Proxy.recv_client v = Ok d -> d <> ""%string ->
  unpack d = Raise e ->
  Proxy.sendall_error v = Ok tt ->
  Proxy.iteration v s
  = (Ok Continue,
     {| Proxy.cache := Proxy.cache s;
        Proxy.sent := Proxy.sent s
          ++ [ToClient (pack (from_error (Proxy.now v)
                                (CalculatorServerErrorFrom "Internal proxy error" e)
                                STATUS_SERVER_ERROR false 0))] |}).
Proof.
  intros Er Hne Eu He. rewrite (iteration_unfold v s d Er Hne). unfold Proxy.handle.
  rewrite bind_lift, Eu. unfold bind, Proxy.send, ret. by rewrite He.
Qed.

Lemma proxy_undecodable_request_witness :
  Demo.demo_unpack "abc" = Raise (UnpackError "truncated header")
  /\ @Proxy.iteration Demo.wire
       {| Proxy.recv_client := Ok "abc"%string; Proxy.now := 1700000000;
          Proxy.sendall_origin := Ok tt; Proxy.recv_origin := Ok ""%string;
          Proxy.sendall_client := Ok tt; Proxy.sendall_error := Ok tt |}
       Demo.empty
     = (Ok Continue,
        {| Proxy.cache := ∅;
           Proxy.sent :=
             [ToClient (Demo.demo_pack
                          (@from_error Demo.wire 1700000000
                             (CalculatorServerErrorFrom "Internal proxy error"
                                (UnpackError "truncated header"))
                             STATUS_SERVER_ERROR false 0))] |}).
Proof.
  split; [reflexivity|].
  apply (@proxy_undecodable_request Demo.wire
           {| Proxy.recv_client := Ok "abc"%string; Proxy.now := 1700000000;
              Proxy.sendall_origin := Ok tt; Proxy.recv_origin := Ok ""%string;
              Proxy.sendall_client := Ok tt; Proxy.sendall_error := Ok tt |}
           Demo.empty "abc"%string (UnpackError "truncated header"));
    [reflexivity | discriminate | reflexivity | reflexivity].
Defined.

(** X18: the proxy's handler reads nothing after its loop is left or an
    exception has ended it: its loop on a longer list of reads does what
    it does on the shorter one and, only if it is still waiting there,
    goes on with the rest from the state it has reached. *)
Theorem proxy_loop_composes `{Wire} (vs ws : list Proxy.env) (s : Proxy.state) :
  Proxy.loop (vs ++ ws) s
  = match Proxy.loop vs s with
    | (Waiting, s') => Proxy.loop ws s'
    | ended => ended
    end.
Proof.
  revert s. induction vs as [|v vs IH]; intros s; cbn [Proxy.loop app]; [done|].
  destruct (Proxy.iteration v s) as [[[]|e] s1]; [apply IH | | ].
  - reflexivity.
  - reflexivity.
Qed.

(** X19: the [except] clause of the proxy's handler does not cover the
    read from the client nor its own [sendall]: if [recv] raises, or if
    the error response for a failed exchange cannot be sent, the
    exception ends the handler, which reads no more; in the first case
    nothing is sent and in both the cache is as it was. *)
Theorem proxy_handler_dies `{Wire} (v : Proxy.env) (vs : list Proxy.env)
    (s : Proxy.state) (d : bytes) (e e' : exn) :
  (Proxy.recv_client v = Raise e ->
   Proxy.client_handler (Ok tt) (v :: vs) s = (Died e, s))
  /\ (Proxy.recv_client v = Ok d -> d <> ""%string -> unpack d = Raise e' ->
      Proxy.sendall_error v = Raise e ->
      Proxy.client_handler (Ok tt) (v :: vs) s = (Died e, s)).
Proof.
  split.
  - intros Er. cbn [Proxy.client_handler Proxy.loop]. unfold Proxy.iteration.
    by rewrite bind_lift, Er.
  - intros Er Hne Eu He. cbn [Proxy.client_handler Proxy.loop].
    rewrite (iteration_unfold v s d Er Hne). unfold Proxy.handle.
    rewrite bind_lift, Eu. unfold bind, Proxy.send, ret. by rewrite He.
Qed.

Lemma proxy_handler_dies_witness :
  @Proxy.client_handler Demo.wire (Ok tt)
    [{| Proxy.recv_client := Raise (SocketError "connection reset");
        Proxy.now := 1700000000;
        Proxy.sendall_origin := Ok tt; Proxy.recv_origin := Ok ""%string;
        Proxy.sendall_client := Ok tt; Proxy.sendall_error := Ok tt |};
     Demo.exchange Demo.request_2_plus_3 "" 1700000002]
    Demo.empty
  = (Died (SocketError "connection reset"), Demo.empty).
Proof.
  destruct (@proxy_handler_dies Demo.wire
              {| Proxy.recv_client := Raise (SocketError "connection reset");
                 Proxy.now := 1700000000;
                 Proxy.sendall_origin := Ok tt; Proxy.recv_origin := Ok ""%string;
                 Proxy.sendall_client := Ok tt; Proxy.sendall_error := Ok tt |}
              [Demo.exchange Demo.request_2_plus_3 "" 1700000002]
              Demo.empty ""%string (SocketError "connection reset")
              (SocketError "connection reset")) as [Hrecv _].
  apply Hrecv. reflexivity.
Defined.

(** X20: [process_request] refuses a message that goes the wrong way.
    Given a response it raises [TypeError] before it looks at the cache
    or contacts the origin; and when what the origin answers decodes to
    a request it raises [TypeError] after the round trip, and stores
    nothing. *)
Theorem process_request_wrong_direction `{Wire} (v : Proxy.fetch_env) (s : Proxy.state)
    (request response : CalculatorHeader) (rd : bytes) :
  (is_request request = false ->
   Proxy.process_request v request s
   = (Raise (TypeError "Received a response instead of a request"), s))
  /\ (is_request request = true ->
      (cache_control request = 0
       \/ forall entry, Proxy.cache s !! (data request, show_steps request) = Some entry ->
                        Proxy.fresh request entry (Proxy.time_lookup v) = false) ->
      Proxy.connect v = Ok tt -> Proxy.fetch_sendall v = Ok tt ->
      Proxy.fetch_recv v = Ok rd -> unpack rd = Ok response ->
      is_request response = true ->
      Proxy.process_request v request s
      = (Raise (TypeError "Received a request instead of a response"),
         {| Proxy.cache := Proxy.cache s;
            Proxy.sent := Proxy.sent s ++ [ToOrigin (pack request)] |})).
Proof.
  split.
  - intros Hq. unfold Proxy.process_request. by rewrite Hq.
  - intros Hq Hmiss Hc Hs Hr Hu Hp. unfold Proxy.process_request. rewrite Hq. cbn [negb].
    unfold bind at 1, Proxy.get_cache.
    assert (Hhit : match
                     match Proxy.cache s !! (data request, show_steps request) with
                     | Some response =>
                         if negb (cache_control request =? 0) then Some response else None
                     | None => None
                     end
                   with
                   | Some response =>
                       if Proxy.fresh request response (Proxy.time_lookup v)
                       then Some response else None
                   | None => None
                   end = None).
    { destruct Hmiss as [->|Hmiss]; [by destruct (Proxy.cache s !! _)|].
      destruct (Proxy.cache s !! _) as [entry|]; [|done].
      destruct (negb _); [|done]. by rewrite Hmiss. }
    rewrite Hhit. unfold bind, lift, Proxy.send. by rewrite Hc, Hs, Hr, Hu, Hp.
Qed.

Lemma process_request_wrong_direction_witness :
  Demo.demo_unpack (Demo.demo_pack Demo.request_2_plus_3) = Ok Demo.request_2_plus_3
  /\ @Proxy.process_request Demo.wire
       (Demo.fetch (Demo.demo_pack Demo.request_2_plus_3) 1700000000)
       (Demo.answer 1700000000 true 65535) Demo.empty
     = (Raise (TypeError "Received a response instead of a request"), Demo.empty)
  /\ @Proxy.process_request Demo.wire
       (Demo.fetch (Demo.demo_pack Demo.request_2_plus_3) 1700000000)
       Demo.request_2_plus_3 Demo.empty
     = (Raise (TypeError "Received a request instead of a response"),
        {| Proxy.cache := ∅;
           Proxy.sent := [ToOrigin (Demo.demo_pack Demo.request_2_plus_3)] |}).
Proof.
  split; [by vm_compute|].
  split.
  - destruct (@process_request_wrong_direction Demo.wire
                (Demo.fetch (Demo.demo_pack Demo.request_2_plus_3) 1700000000)
                Demo.empty (Demo.answer 1700000000 true 65535) Demo.request_2_plus_3
                (Demo.demo_pack Demo.request_2_plus_3)) as [Hfirst _].
    apply Hfirst. reflexivity.
  - destruct (@process_request_wrong_direction Demo.wire
                (Demo.fetch (Demo.demo_pack Demo.request_2_plus_3) 1700000000)
                Demo.empty Demo.request_2_plus_3 Demo.request_2_plus_3
                (Demo.demo_pack Demo.request_2_plus_3)) as [_ Hsecond].
    apply Hsecond;
      [reflexivity | right; intros entry Hl; vm_compute in Hl; discriminate
      | reflexivity | reflexivity | reflexivity | by vm_compute | reflexivity].
Defined.

(** X21: what [process_request] returns tells what it has done.  When it
    says that the response comes from the cache, the response is the
    entry of the request's key, fresh at the time of the lookup, and
    nothing was sent or stored.  When it says that it has stored the
    response, the cache has it under the request's key, both messages
    say [cache_result] and both returned remaining times are positive;
    when it says that it has not, the cache is as it was.  When it says
    that the entry was stale, there was an entry and the request's cache
    control was not 0. *)
Theorem process_request_flags_are_true `{Wire} (v : Proxy.fetch_env) (s s' : Proxy.state)
    (request response : CalculatorHeader) (server_left client_left : Proxy.remaining)
    (from_cache was_stale cached : bool) :
  Proxy.process_request v request s
  = (Ok (response, server_left, client_left, from_cache, was_stale, cached), s') ->
  (from_cache = true ->
     s' = s /\ was_stale = false /\ cached = false
     /\ Proxy.cache s !! (data request, show_steps request) = Some response
     /\ Proxy.fresh request response (Proxy.time_lookup v) = true)
  /\ (from_cache = false ->
      Proxy.sent s' = Proxy.sent s ++ [ToOrigin (pack request)]
      /\ server_left = Proxy.server_time_remaining response (Proxy.time_store v)
      /\ client_left = Proxy.client_time_remaining request response (Proxy.time_store v))
  /\ (cached = true ->
      Proxy.cache s' = <[(data request, show_steps request) := response]> (Proxy.cache s)
      /\ cache_result request = true /\ cache_result response = true
      /\ Proxy.positive server_left = true /\ Proxy.positive client_left = true)
  /\ (cached = false -> Proxy.cache s' = Proxy.cache s)
  /\ (was_stale = true ->
      cache_control request <> 0
      /\ exists entry, Proxy.cache s !! (data request, show_steps request) = Some entry
           /\ Proxy.fresh request entry (Proxy.time_lookup v) = false).
Proof.
  unfold Proxy.process_request.
  unfold bind, lift, Proxy.send, ret, Proxy.get_cache, Proxy.store_response.
  destruct (is_request request); [|discriminate]. simpl.
  destruct (Proxy.cache s !! (data request, show_steps request)) as [entry|] eqn:Hc.
  - destruct (Z.eqb_spec (cache_control request) 0) as [Hz|Hz]; simpl.
    + destruct (match Proxy.connect v with Ok _ => _ | Raise _ => _ end); [|discriminate].
      destruct (Proxy.fetch_sendall v); [|discriminate].
      destruct (Proxy.fetch_recv v) as [rd|]; [|discriminate].
      destruct (unpack rd) as [p|]; [|discriminate].
      destruct (is_request p); [discriminate|].
      destruct (cache_result request) eqn:Eq, (cache_result p) eqn:Ep; simpl;
        try (intros [= <- <- <- <- <- <- <-]; simpl; repeat split; done).
      destruct (Proxy.positive (Proxy.server_time_remaining _ _)) eqn:E1; simpl;
        try (intros [= <- <- <- <- <- <- <-]; simpl; repeat split; done).
      destruct (Proxy.positive (Proxy.client_time_remaining _ _ _)) eqn:E2; simpl;
        intros [= <- <- <- <- <- <- <-]; simpl; repeat split; done.
    + destruct (Proxy.fresh request entry (Proxy.time_lookup v)) eqn:Hf.
      { intros [= <- <- <- <- <- <- <-]. repeat split; done. }
      destruct (match Proxy.connect v with Ok _ => _ | Raise _ => _ end); [|discriminate].
      destruct (Proxy.fetch_sendall v); [|discriminate].
      destruct (Proxy.fetch_recv v) as [rd|]; [|discriminate].
      destruct (unpack rd) as [p|]; [|discriminate].
      destruct (is_request p); [discriminate|].
      destruct (cache_result request) eqn:Eq, (cache_result p) eqn:Ep; simpl;
        try (intros [= <- <- <- <- <- <- <-]; simpl; repeat split; try done; by exists entry).
      destruct (Proxy.positive (Proxy.server_time_remaining _ _)) eqn:E1; simpl;
        try (intros [= <- <- <- <- <- <- <-]; simpl; repeat split; try done; by exists entry).
      destruct (Proxy.positive (Proxy.client_time_remaining _ _ _)) eqn:E2; simpl;
        intros [= <- <- <- <- <- <- <-]; simpl; repeat split; try done; by exists entry.
  - destruct (match Proxy.connect v with Ok _ => _ | Raise _ => _ end); [|discriminate].
    destruct (Proxy.fetch_sendall v); [|discriminate].
    destruct (Proxy.fetch_recv v) as [rd|]; [|discriminate].
    destruct (unpack rd) as [p|]; [|discriminate].
    destruct (is_request p); [discriminate|].
    destruct (cache_result request) eqn:Eq, (cache_result p) eqn:Ep; simpl;
      try (intros [= <- <- <- <- <- <- <-]; simpl; repeat split; done).
    destruct (Proxy.positive (Proxy.server_time_remaining _ _)) eqn:E1; simpl;
      try (intros [= <- <- <- <- <- <- <-]; simpl; repeat split; done).
    destruct (Proxy.positive (Proxy.client_time_remaining _ _ _)) eqn:E2; simpl;
      intros [= <- <- <- <- <- <- <-]; simpl; repeat split; done.
Qed.

Lemma process_request_flags_are_true_witness :
  @Proxy.process_request Demo.wire
    (Demo.fetch (Demo.demo_pack (Demo.answer 1700000000 true 65535)) 1700000000)
    Demo.request_2_plus_3 Demo.empty
  = (Ok (Demo.answer 1700000000 true 65535, Proxy.Infinite, Proxy.Infinite,
         false, false, true),
     {| Proxy.cache :=
          {[ (data Demo.request_2_plus_3, show_steps Demo.request_2_plus_3)
             := Demo.answer 1700000000 true 65535 ]};
        Proxy.sent := [ToOrigin (Demo.demo_pack Demo.request_2_plus_3)] |})
  /\ Proxy.cache
       {| Proxy.cache :=
            {[ (data Demo.request_2_plus_3, show_steps Demo.request_2_plus_3)
               := Demo.answer 1700000000 true 65535 ]};
          Proxy.sent := [ToOrigin (Demo.demo_pack Demo.request_2_plus_3)] |}
     = <[(data Demo.request_2_plus_3, show_steps Demo.request_2_plus_3)
         := Demo.answer 1700000000 true 65535]> (Proxy.cache Demo.empty).
Proof.
  assert (E : @Proxy.process_request Demo.wire
                (Demo.fetch (Demo.demo_pack (Demo.answer 1700000000 true 65535)) 1700000000)
                Demo.request_2_plus_3 Demo.empty
              = (Ok (Demo.answer 1700000000 true 65535, Proxy.Infinite, Proxy.Infinite,
                     false, false, true),
                 {| Proxy.cache :=
                      {[ (data Demo.request_2_plus_3, show_steps Demo.request_2_plus_3)
                         := Demo.answer 1700000000 true 65535 ]};
                    Proxy.sent := [ToOrigin (Demo.demo_pack Demo.request_2_plus_3)] |}))
    by (by vm_compute).
  split; [exact E|].
  destruct (@process_request_flags_are_true Demo.wire _ _ _ _ _ _ _ _ _ _ E)
    as (_ & _ & Hstored & _).
  by destruct Hstored as [Hcache _].
Defined.

(** ** The client *)

(** X22: a result that the server's [process_request] has built never
    makes the client's [process_response] raise.  For a request whose
    expression [calculate] evaluates, the server answers with no steps
    or with at least two, so if the client's reader reads back what the
    server wrote, the unpacking of the steps finds what it needs, and
    the client prints and returns. *)
Theorem server_result_is_printed `{Wire} {num : Type} `{Payload num} `{Client.Reader num}
    (t : Z) (request : CalculatorHeader) (e : Expr num) (v : num) (tr : list (Expr num))
    (s0 r0 : Store.ref) (h0 h0' h : Store.store (Expr num)) :
  is_request request = true ->
  data_to_expression request = Ok e ->
  h0 !! s0 = Some [] ->
  calculate e s0 h0 = (Ok (v, r0), h0') ->
  h0' !! s0 = Some tr ->
  let steps := if show_steps request then map (stringify show_num true) tr else [] in
  Client.data_to_result (from_result t v steps true (2 ^ 16 - 1)) = Ok (v, steps) ->
  (Server.process_request t request h).1 = Ok (from_result t v steps true (2 ^ 16 - 1))
  /\ exists printed,
       Client.process_response (from_result t v steps true (2 ^ 16 - 1)) = (printed, None).
Proof.
  intros Hq Hd Hl E Htr steps Hr.
  destruct (calculate_returns e s0 h0 h0' [] v r0 Hl E) as (_ & tr' & Ee & Hs & _).
  rewrite Htr in Hs. injection Hs as ->.
  split.
  { destruct (process_request_run t request h) as (h' & E' & _).
    rewrite E', Hq, Hd, Ee. reflexivity. }
  unfold Client.process_response. cbn [from_result is_request status_code]. rewrite Hr.
  assert (Hlen : length steps <> 1%nat).
  { unfold steps. destruct (show_steps request); [|simpl; lia].
    rewrite length_map, (evaluate_length e v tr' Ee). unfold trace_length.
    destruct e; simpl; lia. }
  destruct steps as [|expr [|first [|second rest]]]; simpl in Hlen; try lia; by eexists.
Qed.

Lemma server_result_is_printed_witness :
  @data_to_expression Z Demo.payload Demo.request_2_plus_3
  = Ok (BinaryExpr (Constant 2) ADD (Constant 3))
  /\ calculate (BinaryExpr (Constant 2) ADD (Constant 3)) default_steps loaded
     = (Ok (5, default_steps), [[BinaryExpr (Number 2) ADD (Number 3); Constant 5]; []; []])
  /\ @Client.data_to_result Z DemoReader.reader
       (@from_result Z Demo.payload 1700000000 5 ["2 + 3"; "5"]%string true (2 ^ 16 - 1))
     = Ok (5, ["2 + 3"; "5"]%string)
  /\ exists printed,
       @Client.process_response Z Demo.payload DemoReader.reader
         (@from_result Z Demo.payload 1700000000 5 ["2 + 3"; "5"]%string true (2 ^ 16 - 1))
       = (printed, None).
Proof.
  split; [by vm_compute|]. split; [by vm_compute|]. split; [by vm_compute|].
  destruct (@server_result_is_printed Demo.wire Z Demo.payload DemoReader.reader 1700000000
              Demo.request_2_plus_3 (BinaryExpr (Constant 2) ADD (Constant 3)) 5
              [BinaryExpr (Number 2) ADD (Number 3); Constant 5]
              default_steps default_steps loaded
              [[BinaryExpr (Number 2) ADD (Number 3); Constant 5]; []; []]
              loaded)
    as [_ Hprinted];
    [reflexivity | by vm_compute | reflexivity | by vm_compute | reflexivity | by vm_compute |].
  exact Hprinted.
Defined.

(** X23: a result that carries exactly one step makes
    [process_response] raise [ValueError], after it has printed the
    result and the heading of the steps; a result without steps is
    printed on one line and nothing is raised. *)
Theorem process_response_needs_two_steps {num : Type} `{Payload num} `{Client.Reader num}
    (response : CalculatorHeader) (v : num) (steps : list string) :
  is_request response = false ->
  status_code response = STATUS_OK ->
  Client.data_to_result response = Ok (v, steps) ->
  (length steps <= 1)%nat ->
  Client.process_response response
  = match steps with
    | [] => ("Result: " +:+ show_num v +:+ Client.nl, None)
    | _ =>
        (("Result: " +:+ show_num v +:+ Client.nl) +:+ "Steps:" +:+ Client.nl,
         Some (Client.ValueError "not enough values to unpack (expected at least 2, got 1)"))
    end.
Proof.
  intros Hq Hs Hr Hlen. unfold Client.process_response. rewrite Hq, Hs, Hr.
  destruct steps as [|a [|b rest]]; [done | done | simpl in Hlen; lia].
Qed.

Lemma process_response_needs_two_steps_witness :
  @Client.data_to_result Z DemoReader.reader
    (@from_result Z Demo.payload 1700000000 5 ["5"]%string true 0)
  = Ok (5, ["5"]%string)
  /\ (@Client.process_response Z Demo.payload DemoReader.reader
        (@from_result Z Demo.payload 1700000000 5 ["5"]%string true 0)).2
     = Some (Client.ValueError "not enough values to unpack (expected at least 2, got 1)").
Proof.
  split; [by vm_compute|].
  rewrite (@process_response_needs_two_steps Z Demo.payload DemoReader.reader
             (@from_result Z Demo.payload 1700000000 5 ["5"]%string true 0)
             5 ["5"]%string);
    [reflexivity | reflexivity | reflexivity | by vm_compute | simpl; lia].
Defined.

(** X24: the error responses of the two servers reach the user under
    the name of their author.  An answer of the server's
    [process_request] that is not a result makes [process_response]
    raise [CalculatorClientError], and the error response of the
    proxy's handler makes it raise [CalculatorServerError], each with
    the text read from the payload; nothing is printed. *)
Theorem error_responses_are_raised `{Wire} {num : Type} `{Payload num} `{Client.Reader num}
    (t : Z) (request m : CalculatorHeader) (h : Store.store (Expr num))
    (v : Proxy.env) (e : exn) (err : string) :
  ((Server.process_request t request h).1 = Ok m ->
   status_code m <> STATUS_OK ->
   Client.data_to_error m = Ok err ->
   Client.process_response m
   = (EmptyString, Some (Client.Calculator (CalculatorClientError err))))
  /\ (Client.data_to_error (Proxy.proxy_error v e) = Ok err ->
      Client.process_response (Proxy.proxy_error v e)
      = (EmptyString, Some (Client.Calculator (CalculatorServerError err)))).
Proof.
  split.
  - intros E Hs He.
    destruct (process_request_response t request h) as (m' & h' & E' & Hq & _ & _ & Hst).
    rewrite E' in E. injection E as ->.
    unfold Client.process_response. rewrite Hq.
    destruct Hst as [Hst|Hst]; [done|]. by rewrite Hst, He.
  - intros He. unfold Client.process_response.
    cbn [Proxy.proxy_error from_error is_request status_code].
    by rewrite He.
Qed.

Lemma error_responses_are_raised_witness :
  (@Server.process_request Z Demo.wire Demo.payload 1700000000
     (Client.termination_request 1699999999) loaded).1
  = Ok (@from_error Demo.wire 1700000000
          (TypeError "Received a response instead of a request")
          STATUS_CLIENT_ERROR true (2 ^ 16 - 1))
  /\ @Client.process_response Z Demo.payload DemoReader.reader
       (@from_error Demo.wire 1700000000
          (TypeError "Received a response instead of a request")
          STATUS_CLIENT_ERROR true (2 ^ 16 - 1))
     = (EmptyString,
        Some (Client.Calculator
                (CalculatorClientError "Received a response instead of a request"))).
Proof.
  split; [by vm_compute|].
  destruct (@error_responses_are_raised Demo.wire Z Demo.payload DemoReader.reader
              1700000000 (Client.termination_request 1699999999)
              (@from_error Demo.wire 1700000000
                 (TypeError "Received a response instead of a request")
                 STATUS_CLIENT_ERROR true (2 ^ 16 - 1))
              loaded (Demo.exchange Demo.request_2_plus_3 "" 0)
              (TypeError "x") "Received a response instead of a request"%string)
    as [Hserver _].
  apply Hserver; [by vm_compute | discriminate | reflexivity].
Defined.

(** ** The proxy in front of the server *)

(** X25: the proxy stores the server's error responses like results.
    When the origin's answer to a forwarded request is what the
    server's [process_request] answers to that request, and that is an
    error response, and the request says [cache_result], the handler
    stores the error under the request's key; a later read of the same
    request, at any later time if the request's cache control is 65535,
    is answered with the stored error and the origin is not asked
    again. *)
Theorem proxy_caches_server_errors `{Wire} {num : Type} `{Payload num}
    (v1 v2 : Proxy.env) (s : Proxy.state) (d : bytes) (request m : CalculatorHeader)
    (t : Z) (h : Store.store (Expr num)) :
  Proxy.recv_client v1 = Ok d -> Proxy.recv_client v2 = Ok d -> d <> ""%string ->
  unpack d = Ok request -> data request <> "EXIT"%string ->
  (forall entry, Proxy.cache s !! (data request, show_steps request) = Some entry ->
                 Proxy.fresh request entry (Proxy.now v1) = false) ->
  Proxy.sendall_origin v1 = Ok tt ->
  (Server.process_request t request h).1 = Ok m ->
  status_code m = STATUS_CLIENT_ERROR ->
  Proxy.recv_origin v1 = Ok (pack m) ->
  unpack (pack m) = Ok m ->
  cache_result request = true ->
  cache_control request = 65535 ->
  Proxy.sendall_client v2 = Ok tt ->
  Proxy.cache (Proxy.iteration v1 s).2 !! (data request, show_steps request) = Some m
  /\ Proxy.iteration v2 (Proxy.iteration v1 s).2
     = (Ok Continue,
        {| Proxy.cache := Proxy.cache (Proxy.iteration v1 s).2;
           Proxy.sent := Proxy.sent (Proxy.iteration v1 s).2 ++ [ToClient (pack m)] |}).
Proof.
  intros Er1 Er2 Hne Eu Hx Hmiss Hs Em Hst Hr Hu Hq Hcc Hc.
  destruct (process_request_response t request h) as (m' & h' & E' & _ & Hp & Hmax & _).
  rewrite E' in Em. injection Em as ->.
  assert (Hl : Proxy.cache (Proxy.iteration v1 s).2 !! (data request, show_steps request)
               = Some m).
  { rewrite (handler_store_condition v1 s d (pack m) request m) by done.
    rewrite Hq, Hp. apply lookup_insert_eq. }
  split; [exact Hl|].
  assert (Hf : Proxy.fresh request m (Proxy.now v2) = true).
  { unfold Proxy.fresh, Proxy.server_time_remaining, Proxy.client_time_remaining,
      Proxy.or_inf. by rewrite Hmax, Hcc. }
  rewrite (iteration_unfold v2 _ d Er2 Hne), (handle_hit v2 _ d request m Eu Hx Hl Hf).
  unfold bind, Proxy.send, ret. by rewrite Hc.
Qed.

Lemma proxy_caches_server_errors_witness :
  (@Server.process_request Z Demo.wire DemoMod.payload 1700000000
     DemoMod.request_1_mod_0 loaded).1
  = Ok (@from_error Demo.wire 1700000000 (RuleError "integer modulo by zero")
          STATUS_CLIENT_ERROR true (2 ^ 16 - 1))
  /\ Proxy.sent
       (@Proxy.iteration Demo.wire (Demo.exchange DemoMod.request_1_mod_0 "" 1800000000)
          (@Proxy.iteration Demo.wire
             (Demo.exchange DemoMod.request_1_mod_0
                (Demo.demo_pack
                   (@from_error Demo.wire 1700000000 (RuleError "integer modulo by zero")
                      STATUS_CLIENT_ERROR true (2 ^ 16 - 1)))
                1700000000)
             Demo.empty).2).2
     = [ToOrigin (Demo.demo_pack DemoMod.request_1_mod_0);
        ToClient (Demo.demo_pack
                    (@from_error Demo.wire 1700000000 (RuleError "integer modulo by zero")
                       STATUS_CLIENT_ERROR true (2 ^ 16 - 1)));
        ToClient (Demo.demo_pack
                    (@from_error Demo.wire 1700000000 (RuleError "integer modulo by zero")
                       STATUS_CLIENT_ERROR true (2 ^ 16 - 1)))].
Proof.
  split; [by vm_compute|].
  destruct (@proxy_caches_server_errors Demo.wire Z DemoMod.payload
              (Demo.exchange DemoMod.request_1_mod_0
                 (Demo.demo_pack
                    (@from_error Demo.wire 1700000000 (RuleError "integer modulo by zero")
                       STATUS_CLIENT_ERROR true (2 ^ 16 - 1)))
                 1700000000)
              (Demo.exchange DemoMod.request_1_mod_0 "" 1800000000)
              Demo.empty (Demo.demo_pack DemoMod.request_1_mod_0)
              DemoMod.request_1_mod_0
              (@from_error Demo.wire 1700000000 (RuleError "integer modulo by zero")
                 STATUS_CLIENT_ERROR true (2 ^ 16 - 1))
              1700000000 loaded) as [_ Hsecond];
    [reflexivity | reflexivity | discriminate | by vm_compute | discriminate
    | intros entry Hl; vm_compute in Hl; discriminate
    | reflexivity | by vm_compute | reflexivity | reflexivity | by vm_compute
    | reflexivity | reflexivity | reflexivity |].
  rewrite Hsecond. by vm_compute.
Defined.
